(** * The study-session state machine of [FlashcardMode.tsx]

    A shallow embedding of the React component [FlashcardMode]
    (src/components/FlashcardMode.tsx): its state variables, its event
    handlers, its two effects and its render guards, followed by the
    properties of the queue / result-ledger life cycle.

    Conventions.
    - A JavaScript string is the list of its UTF-16 code units.
    - The [results] object ([Record<string, UserResult>]) is a finite map
      keyed by card id; ids are taken not to name a property inherited from
      [Object.prototype] (the importer issues [card-<n>]).
    - The objects of the [cards] prop are pairwise distinct, so the
      identity of [currentCard] is its position in [cards].
    - A handler runs against the state of the render it was created in and
      enqueues state updates; [handle] gives the state after those updates.
      The effects that React runs after the next render are [runEffects].
    - [onComplete(finalResults)] unmounts the component (App.tsx switches to
      the analysing screen), so it is modelled as the terminal outcome
      [Complete finalResults].
    - Reading a property of [undefined] raises a [TypeError]; this is the
      outcome [TypeError].
    - The controls of the card screen are all in the document whichever
      face of the card is up, and neither [goToNextCard] nor [handleSkip]
      nor [handleSubmit] tests [isFlipped]: every event of the card screen
      can fire on either face. *)

From stdpp Require Import base option list gmap countable strings.
From Stdlib Require Import NArith ZArith Lia Sorted.

Local Open Scope nat_scope.

(** ** JavaScript strings *)

Definition jsstring : Type := list N.

(** ECMAScript [WhiteSpace] and [LineTerminator] code units, the ones
    [String.prototype.trim] strips. *)
Definition isTrimmable (c : N) : bool :=
  ((c =? 9) || (c =? 10) || (c =? 11) || (c =? 12) || (c =? 13) || (c =? 32)
   || (c =? 160) || (c =? 5760) || ((8192 <=? c) && (c <=? 8202))
   || (c =? 8232) || (c =? 8233) || (c =? 8239) || (c =? 8287)
   || (c =? 12288) || (c =? 65279))%N.

Fixpoint trimStart (s : jsstring) : jsstring :=
  match s with
  | c :: s' => if isTrimmable c then trimStart s' else s
  | [] => []
  end.

Definition trimEnd (s : jsstring) : jsstring := reverse (trimStart (reverse s)).

Definition trim (s : jsstring) : jsstring := trimEnd (trimStart s).

(** Truthiness of a string: only the empty string is falsy. *)
Definition truthy (s : jsstring) : bool :=
  match s with [] => false | _ :: _ => true end.

(** Code units of an ASCII literal, for examples. *)
Fixpoint js (s : String.string) : jsstring :=
  match s with
  | String.EmptyString => []
  | String.String a s' => Ascii.N_of_ascii a :: js s'
  end.

Arguments js s%_string.

(** ** types.ts *)

Module FlashcardData.
Record t : Type := mk { id : jsstring; chinese : jsstring; english : jsstring }.
End FlashcardData.

Module UserResult.
Record t : Type := mk {
  cardId : jsstring;
  chinese : jsstring;
  correctEnglish : jsstring;
  userInput : jsstring;
  isSkipped : bool;
  isBookmarked : bool
}.
End UserResult.

(** ** Component state: the [useState] cells of [FlashcardMode] *)

Record State : Type := mkState {
  queue : list nat;
  queueIndex : nat;
  results : gmap jsstring UserResult.t;
  (** identity of the [results] object: every [setResults] updater
      allocates a fresh object, which is what effect dependencies compare *)
  resultsRef : nat;
  isFlipped : bool;
  input : jsstring;
  isBookmarked : bool;
  showRetryPrompt : bool
}.

Definition setQueue (q : list nat) (s : State) : State :=
  mkState q (queueIndex s) (results s) (resultsRef s) (isFlipped s) (input s)
          (isBookmarked s) (showRetryPrompt s).
Definition setQueueIndex (i : nat) (s : State) : State :=
  mkState (queue s) i (results s) (resultsRef s) (isFlipped s) (input s)
          (isBookmarked s) (showRetryPrompt s).
Definition setResults (r : gmap jsstring UserResult.t) (s : State) : State :=
  mkState (queue s) (queueIndex s) r (S (resultsRef s)) (isFlipped s) (input s)
          (isBookmarked s) (showRetryPrompt s).
Definition setIsFlipped (b : bool) (s : State) : State :=
  mkState (queue s) (queueIndex s) (results s) (resultsRef s) b (input s)
          (isBookmarked s) (showRetryPrompt s).
Definition setInput (t : jsstring) (s : State) : State :=
  mkState (queue s) (queueIndex s) (results s) (resultsRef s) (isFlipped s) t
          (isBookmarked s) (showRetryPrompt s).
Definition setIsBookmarked (b : bool) (s : State) : State :=
  mkState (queue s) (queueIndex s) (results s) (resultsRef s) (isFlipped s)
          (input s) b (showRetryPrompt s).
Definition setShowRetryPrompt (b : bool) (s : State) : State :=
  mkState (queue s) (queueIndex s) (results s) (resultsRef s) (isFlipped s)
          (input s) (isBookmarked s) b.

(** What a handler (or an effect) leaves behind. *)
Inductive Outcome : Type :=
  | Next (s : State)
  | Complete (finalResults : list UserResult.t)
  | TypeError.

(** The user events the rendered component reacts to. *)
Inductive Action : Type :=
  | Type_ (text : jsstring)   (* textarea onChange *)
  | Submit                    (* Submit Answer button, or Enter *)
  | Skip
  | Advance                   (* Next Card *)
  | Previous
  | ToggleBookmark
  | RetryAccept               (* Yes, Practice Skipped Cards *)
  | RetryDecline.             (* No, Generate Summary Report *)

Inductive View : Type := RetryPromptView | NullView | CardView.

Global Instance Action_eq_dec : EqDecision Action.
Proof. solve_decision. Defined.

Section Component.

(** The [cards] prop. *)
Variable cards : list FlashcardData.t.

(** *** Derived state (lines 27-33) *)

Definition currentCardIndex (s : State) : option nat := queue s !! queueIndex s.

Definition currentCard (s : State) : option FlashcardData.t :=
  i ← currentCardIndex s; cards !! i.

(** [results[id]?.isSkipped], as a condition *)
Definition ledgerSkipped (r : gmap jsstring UserResult.t) (k : jsstring) : bool :=
  match r !! k with
  | Some x => UserResult.isSkipped x
  | None => false
  end.

Definition skippedCount (s : State) : nat :=
  length (filter (λ c, Is_true (ledgerSkipped (results s) (FlashcardData.id c))) cards).

(** *** Handlers *)

(** lines 57-71 *)
Definition saveCurrentResult (skipped : bool) (currentInput : jsstring)
    (currentBookmark : bool) (s : State) : option State :=
  match currentCard s with
  | None => None
  | Some c =>
      let result :=
        UserResult.mk (FlashcardData.id c) (FlashcardData.chinese c)
                      (FlashcardData.english c) currentInput skipped currentBookmark in
      Some (setResults (<[FlashcardData.id c := result]> (results s)) s)
  end.

(** lines 73-78 *)
Definition toggleBookmark (s : State) : Outcome :=
  let newState := negb (isBookmarked s) in
  match saveCurrentResult false (input s) newState (setIsBookmarked newState s) with
  | Some s' => Next s'
  | None => TypeError
  end.

(** lines 80-85 *)
Definition handlePrevious (s : State) : Outcome :=
  if decide (0 < queueIndex s)
  then Next (setQueueIndex (queueIndex s - 1) (setIsFlipped false s))
  else Next s.

(** lines 98-107; [queue.length - 1] is [-1] on an empty queue *)
Definition goToNextCard (s : State) : State :=
  if decide (Z.of_nat (queueIndex s) < Z.of_nat (length (queue s)) - 1)%Z
  then setQueueIndex (queueIndex s + 1) (setIsFlipped false s)
  else setShowRetryPrompt true (setIsFlipped false s).

(** lines 87-90 *)
Definition handleSkip (s : State) : Outcome :=
  match saveCurrentResult true (input s) (isBookmarked s) s with
  | Some s' => Next (goToNextCard s')
  | None => TypeError
  end.

(** lines 92-96 *)
Definition handleSubmit (s : State) : Outcome :=
  if negb (truthy (trim (input s))) then Next s
  else match saveCurrentResult false (input s) (isBookmarked s) s with
       | Some s' => Next (setIsFlipped true s')
       | None => TypeError
       end.

(** lines 128-142 *)
Definition finalResults (r : gmap jsstring UserResult.t) : list UserResult.t :=
  (λ card,
     match r !! FlashcardData.id card with
     | Some x => x
     | None => UserResult.mk (FlashcardData.id card) (FlashcardData.chinese card)
                             (FlashcardData.english card) [] true false
     end) <$> cards.

Definition handleFinish (s : State) : Outcome := Complete (finalResults (results s)).

(** lines 109-126 *)
Definition skippedAt (r : gmap jsstring UserResult.t) (idx : nat) : bool :=
  match cards !! idx with
  | Some c => ledgerSkipped r (FlashcardData.id c)
  | None => false   (* not reached: [idx] ranges over the positions of [cards] *)
  end.

Definition skippedIndices (r : gmap jsstring UserResult.t) : list nat :=
  filter (λ idx, Is_true (skippedAt r idx)) (seq 0 (length cards)).

Definition handleRetry (s : State) : Outcome :=
  let skipped := skippedIndices (results s) in
  if decide (0 < length skipped)
  then Next (setShowRetryPrompt false (setQueueIndex 0 (setQueue skipped s)))
  else handleFinish s.

(** *** Render (lines 144-171): which screen the user sees *)

Definition view (s : State) : View :=
  if showRetryPrompt s && bool_decide (0 < skippedCount s) then RetryPromptView
  else match currentCard s with
       | None => NullView
       | Some _ => CardView
       end.

(** The handler wired to each control of the rendered screen.  A control
    that is not on the screen cannot fire. *)
Definition handle (a : Action) (s : State) : Outcome :=
  match view s, a with
  | RetryPromptView, RetryAccept => handleRetry s
  | RetryPromptView, RetryDecline => handleFinish s
  | CardView, Type_ text => Next (setInput text s)
  | CardView, Submit => handleSubmit s
  | CardView, Skip => handleSkip s
  | CardView, Advance => Next (goToNextCard s)
  | CardView, Previous => handlePrevious s
  | CardView, ToggleBookmark => toggleBookmark s
  | _, _ => Next s
  end.

(** *** Effects *)

(** Identity of the [currentCard] object: its position in [cards]. *)
Definition currentCardRef (s : State) : option nat :=
  i ← currentCardIndex s; if decide (i < length cards) then Some i else None.

(** lines 35-48, dependencies [currentCard, results, isFlipped].  The
    lookup [results[currentCard.id]] is the map lookup, which is what the
    code computes for every id that names no member of [Object.prototype]
    (see [objectPrototypeMembers]). *)
Definition rehydrate (s : State) : State :=
  match currentCard s with
  | Some c =>
      match results s !! FlashcardData.id c with
      | Some existingResult =>
          setIsBookmarked (UserResult.isBookmarked existingResult)
            (setInput (UserResult.userInput existingResult) s)
      | None => setIsBookmarked false (setInput [] s)
      end
  | None => s
  end.

Definition rehydrateDepsChanged (prev s : State) : bool :=
  negb (bool_decide (currentCardRef prev = currentCardRef s))
  || negb (bool_decide (resultsRef prev = resultsRef s))
  || negb (bool_decide (isFlipped prev = isFlipped s)).

(** lines 50-55, dependencies [showRetryPrompt, skippedCount] *)
Definition autoFinishDepsChanged (prev s : State) : bool :=
  negb (bool_decide (showRetryPrompt prev = showRetryPrompt s))
  || negb (bool_decide (skippedCount prev = skippedCount s)).

(** The effects of the render that follows a handler: [prev] is the
    state of the previous render, [s] the state being rendered. *)
Definition runEffects (prev s : State) : Outcome :=
  let s' := if rehydrateDepsChanged prev s then rehydrate s else s in
  if autoFinishDepsChanged prev s && showRetryPrompt s
     && bool_decide (skippedCount s = 0)
  then handleFinish s
  else Next s'.

(** One user event, from one settled render to the next. *)
Definition dispatch (a : Action) (o : Outcome) : Outcome :=
  match o with
  | Next s =>
      match handle a s with
      | Next s' => runEffects s s'
      | o' => o'
      end
  | _ => o
  end.

(** lines 14-23: the initial state *)
Definition initialState : State :=
  mkState (seq 0 (length cards)) 0 ∅ 0 false [] false false.

(** First render: both effects run once. *)
Definition mount : Outcome :=
  let s := initialState in
  if showRetryPrompt s && bool_decide (skippedCount s = 0)
  then handleFinish s
  else Next (rehydrate s).

Definition run (acts : list Action) : Outcome := foldl (λ o a, dispatch a o) mount acts.

End Component.


(** The result [handleFinish] synthesises for a card that has no ledger
    entry (lines 132-139). *)
Definition synthesized (card : FlashcardData.t) : UserResult.t :=
  UserResult.mk (FlashcardData.id card) (FlashcardData.chinese card)
                (FlashcardData.english card) [] true false.

(** The result [saveCurrentResult] builds (lines 58-65). *)
Definition recorded (card : FlashcardData.t) (text : jsstring)
    (skipped bookmarked : bool) : UserResult.t :=
  UserResult.mk (FlashcardData.id card) (FlashcardData.chinese card)
                (FlashcardData.english card) text skipped bookmarked.

(** Every entry of the ledger is filed under its own [cardId]. *)
Definition ledgerKeyed (r : gmap jsstring UserResult.t) : Prop :=
  ∀ k x, r !! k = Some x → UserResult.cardId x = k.

(** The [results] object seen by the render that follows handler [a]. *)
Definition ledgerAfter (cards : list FlashcardData.t) (a : Action) (s : State)
    : gmap jsstring UserResult.t :=
  match handle cards a s with
  | Next s' => results s'
  | _ => results s
  end.

(** A render the user can act on: the ledger is keyed by card id and the
    prompt flag is only up while something is skipped. *)
Definition Settled (cards : list FlashcardData.t) (s : State) : Prop :=
  ledgerKeyed (results s) ∧ (showRetryPrompt s = true → 0 < skippedCount cards s).

(** The card the card screen shows, if that is the screen on display. *)
Definition shownCard (cards : list FlashcardData.t) (o : Outcome) : option jsstring :=
  match o with
  | Next s =>
      match view cards s with
      | CardView => FlashcardData.id <$> currentCard cards s
      | _ => None
      end
  | _ => None
  end.

(** Event [a] is fired somewhere in [acts] while card [k] is on screen;
    [o] is the outcome the events start from. *)
Fixpoint occursFrom (cards : list FlashcardData.t) (a : Action) (k : jsstring)
    (o : Outcome) (acts : list Action) : bool :=
  match acts with
  | [] => false
  | x :: rest =>
      (bool_decide (x = a) && bool_decide (shownCard cards o = Some k))
      || occursFrom cards a k (dispatch cards x o) rest
  end.

Definition occursOn (cards : list FlashcardData.t) (a : Action) (k : jsstring)
    (acts : list Action) : bool :=
  occursFrom cards a k (mount cards) acts.

(** What the ledger can hold for a card that was never submitted and never
    skipped: nothing if its bookmark was never toggled, else an entry that
    is not marked skipped. *)
Definition bookmarkOnly (cards : list FlashcardData.t) (k : jsstring)
    (acts : list Action) (e : option UserResult.t) : Prop :=
  match e with
  | None => occursOn cards ToggleBookmark k acts = false
  | Some r => UserResult.isSkipped r = false ∧ occursOn cards ToggleBookmark k acts = true
  end.

(** The edit buffer holds what the rehydration effect loads for the
    current card: the values of its ledger entry, or the empty string and
    [false] when it has none. *)
Definition BookmarkLoaded (cards : list FlashcardData.t) (s : State) : Prop :=
  ∀ c, currentCard cards s = Some c →
       isBookmarked s =
         default false (UserResult.isBookmarked <$> results s !! FlashcardData.id c).

Definition InputLoaded (cards : list FlashcardData.t) (s : State) : Prop :=
  ∀ c, currentCard cards s = Some c →
       input s = default [] (UserResult.userInput <$> results s !! FlashcardData.id c).

(** The ledger entry of card [k] in a running session. *)
Definition entryOf (o : Outcome) (k : jsstring) : option UserResult.t :=
  match o with
  | Next s => results s !! k
  | _ => None
  end.

(** Sample card stores: two cards with Chinese sources, and four cards
    [A], [B], [C], [D]. *)
Definition twoCards : list FlashcardData.t :=
  [ FlashcardData.mk (js "1") [20320; 22909]%N (js "Hello");
    FlashcardData.mk (js "2") [35874; 35874]%N (js "Thanks") ].

Definition abcd : list FlashcardData.t :=
  [ FlashcardData.mk (js "A") (js "a") (js "alpha");
    FlashcardData.mk (js "B") (js "b") (js "beta");
    FlashcardData.mk (js "C") (js "c") (js "gamma");
    FlashcardData.mk (js "D") (js "d") (js "delta") ].

(** A string [trim] empties: nothing but white space and line terminators. *)
Definition blank (t : jsstring) : bool := forallb isTrimmable t.

(** The queue lists card positions in increasing order and the cursor
    points into it. *)
Definition QueueOk (cards : list FlashcardData.t) (s : State) : Prop :=
  StronglySorted lt (queue s) ∧ Forall (λ i, i < length cards) (queue s) ∧
  queueIndex s < length (queue s).

(** The queue holds every position of every card id it touches, and every
    position whose card is marked skipped. *)
Definition QueueCovers (cards : list FlashcardData.t) (s : State) : Prop :=
  (∀ i j ci cj, i ∈ queue s → cards !! i = Some ci → cards !! j = Some cj →
                FlashcardData.id ci = FlashcardData.id cj → j ∈ queue s) ∧
  (∀ i, skippedAt cards (results s) i = true → i ∈ queue s).

(** Every ledger entry was built by [saveCurrentResult] from a card of the
    store and is filed under that card's id. *)
Definition LedgerFromCards (cards : list FlashcardData.t)
    (r : gmap jsstring UserResult.t) : Prop :=
  ∀ k x, r !! k = Some x →
         ∃ c text skipped bookmarked,
           c ∈ cards ∧ FlashcardData.id c = k ∧ x = recorded c text skipped bookmarked.

(** ** services/geminiService.ts and components/SummaryReport.tsx *)

(** A card analysis as it exists at run time: the object parsed from the
    model's reply, in which any property may be missing.  [None] is
    [undefined]. *)
Module CardAnalysis.
Record t : Type := mk {
  cardId : option jsstring;
  chinese : option jsstring;
  userInput : option jsstring;
  status : option jsstring;
  errorType : option jsstring;
  feedback : option jsstring;
  improvedVersion : option jsstring;
  isBookmarked : option bool
}.
End CardAnalysis.

(** [results.find(r => r.cardId === analysis.cardId)]: a missing [cardId]
    is strictly equal to no string. *)
Definition findOriginal (results : list UserResult.t) (analysis : CardAnalysis.t)
    : option UserResult.t :=
  match CardAnalysis.cardId analysis with
  | Some k => find (λ r, bool_decide (UserResult.cardId r = k)) results
  | None => None
  end.

(** The merge step of [generateStudySummary]: the callback mapped over
    [report.cardAnalyses]. *)
Definition mergeAnalysis (results : list UserResult.t) (analysis : CardAnalysis.t)
    : CardAnalysis.t :=
  let originalResult := findOriginal results analysis in
  CardAnalysis.mk
    (CardAnalysis.cardId analysis)
    (Some (match originalResult with Some r => UserResult.chinese r | None => [] end))
    (Some (match originalResult with Some r => UserResult.userInput r | None => [] end))
    (CardAnalysis.status analysis)
    (CardAnalysis.errorType analysis)
    (CardAnalysis.feedback analysis)
    (CardAnalysis.improvedVersion analysis)
    (Some (match originalResult with Some r => UserResult.isBookmarked r | None => false end)).

Definition mergeAnalyses (results : list UserResult.t)
    (cardAnalyses : list CardAnalysis.t) : list CardAnalysis.t :=
  mergeAnalysis results <$> cardAnalyses.

(** [c.isBookmarked] as a condition: a missing property is falsy. *)
Definition bookmarkShown (c : CardAnalysis.t) : bool :=
  match CardAnalysis.isBookmarked c with
  | Some b => b
  | None => false
  end.

(** [filteredCards] of [SummaryReport]. *)
Definition filteredCards (showBookmarksOnly : bool)
    (cardAnalyses : list CardAnalysis.t) : list CardAnalysis.t :=
  if showBookmarksOnly
  then filter (λ c, Is_true (bookmarkShown c)) cardAnalyses
  else cardAnalyses.

(** Whether text was typed into the edit buffer since the rehydration
    effect last ran: event [a], fired on outcome [o], clears the mark when
    the effect re-runs after it, sets it when it is typing on the card
    screen, and leaves it alone otherwise. *)
Definition typingStep (cards : list FlashcardData.t) (a : Action) (o : Outcome)
    (typed : bool) : bool :=
  match o with
  | Next s =>
      match handle cards a s with
      | Next s1 =>
          if rehydrateDepsChanged cards s s1 then false
          else match a, view cards s with
               | Type_ _, CardView => true
               | _, _ => typed
               end
      | _ => typed
      end
  | _ => typed
  end.

Fixpoint typedFrom (cards : list FlashcardData.t) (o : Outcome) (typed : bool)
    (acts : list Action) : bool :=
  match acts with
  | [] => typed
  | a :: rest => typedFrom cards (dispatch cards a o) (typingStep cards a o typed) rest
  end.

(** The effect runs on mount, so a session starts with nothing typed. *)
Definition typedSinceLoad (cards : list FlashcardData.t) (acts : list Action) : bool :=
  typedFrom cards (mount cards) false acts.

(** The property names every object inherits from [Object.prototype]: for
    these, and only these, [results[id]] of the code can differ from the
    map lookup ([results[id]] is then the inherited member while the map
    has no entry). *)
Definition objectPrototypeMembers : list jsstring :=
  [ js "constructor"; js "__defineGetter__"; js "__defineSetter__";
    js "hasOwnProperty"; js "__lookupGetter__"; js "__lookupSetter__";
    js "isPrototypeOf"; js "propertyIsEnumerable"; js "toString"; js "valueOf";
    js "__proto__"; js "toLocaleString" ].

Definition OwnIds (cards : list FlashcardData.t) : Prop :=
  Forall (λ c, FlashcardData.id c ∉ objectPrototypeMembers) cards.

(** ** Strings *)

Lemma bool_decide_refl {A} `{EqDecision A} (x : A) : bool_decide (x = x) = true.
Proof. by apply bool_decide_eq_true_2. Qed.

Lemma trimStart_blank t : blank t = true → trimStart t = [].
Proof.
  induction t as [|c t IH]; simpl; [done|].
  intros [Hc Ht]%andb_prop. rewrite Hc. auto.
Qed.

Lemma trimStart_nonblank t : blank t = false → blank (trimStart t) = false ∧ trimStart t ≠ [].
Proof.
  induction t as [|c t IH]; simpl; [done|].
  destruct (isTrimmable c) eqn:Hc; simpl.
  - auto.
  - intros _. simpl. rewrite Hc. done.
Qed.

Lemma blank_app t u : blank (t ++ u) = blank t && blank u.
Proof. apply forallb_app. Qed.

Lemma blank_reverse t : blank (reverse t) = blank t.
Proof.
  induction t as [|c t IH]; [done|].
  rewrite reverse_cons, blank_app, IH. simpl. rewrite andb_true_r. apply andb_comm.
Qed.

(** [!input.trim()] holds exactly for blank input. *)
Lemma trim_truthy t : truthy (trim t) = negb (blank t).
Proof.
  unfold trim, trimEnd. destruct (blank t) eqn:Hb; simpl.
  - rewrite (trimStart_blank t Hb). done.
  - destruct (trimStart_nonblank t Hb) as [Hb1 _].
    rewrite <- blank_reverse in Hb1.
    destruct (trimStart_nonblank _ Hb1) as [_ Hne].
    destruct (trimStart (reverse (trimStart t))) as [|x l] eqn:E; [done|].
    rewrite reverse_cons. by destruct (reverse l).
Qed.

(** ** The ledger and [handleFinish] *)

Section Facts.

Variable cards : list FlashcardData.t.

Lemma finalResults_length r : length (finalResults cards r) = length cards.
Proof. unfold finalResults. apply length_fmap. Qed.

Lemma finalResults_lookup r i c :
  cards !! i = Some c →
  finalResults cards r !! i = Some (default (synthesized c) (r !! FlashcardData.id c)).
Proof.
  intros Hc. unfold finalResults. rewrite list_lookup_fmap, Hc. simpl.
  by destruct (r !! FlashcardData.id c).
Qed.

Lemma saveCurrentResult_Some skipped text bookmarked s c :
  currentCard cards s = Some c →
  saveCurrentResult cards skipped text bookmarked s =
    Some (setResults (<[FlashcardData.id c := recorded c text skipped bookmarked]> (results s)) s).
Proof. intros Hc. unfold saveCurrentResult. by rewrite Hc. Qed.

Lemma ledgerKeyed_insert r c text skipped bookmarked :
  ledgerKeyed r →
  ledgerKeyed (<[FlashcardData.id c := recorded c text skipped bookmarked]> r).
Proof.
  intros Hr k x. rewrite lookup_insert. case_decide as Hk.
  - intros [= <-]. by subst.
  - apply Hr.
Qed.

Lemma view_CardView s :
  view cards s = CardView →
  (∃ c, currentCard cards s = Some c) ∧
  (showRetryPrompt s && bool_decide (0 < skippedCount cards s) = false).
Proof.
  unfold view. destruct (showRetryPrompt s && _); [done|].
  destruct (currentCard cards s) eqn:E; [eauto|done].
Qed.

(** What a handler of the card screen does to the state, as equations. *)

Lemma toggleBookmark_eq s c :
  currentCard cards s = Some c →
  toggleBookmark cards s =
    Next (setResults (<[FlashcardData.id c :=
                          recorded c (input s) false (negb (isBookmarked s))]> (results s))
                     (setIsBookmarked (negb (isBookmarked s)) s)).
Proof.
  intros Hc. unfold toggleBookmark.
  by rewrite (saveCurrentResult_Some _ _ _ _ c).
Qed.

Lemma handleSkip_eq s c :
  currentCard cards s = Some c →
  handleSkip cards s =
    Next (goToNextCard
            (setResults (<[FlashcardData.id c :=
                             recorded c (input s) true (isBookmarked s)]> (results s)) s)).
Proof. intros Hc. unfold handleSkip. by rewrite (saveCurrentResult_Some _ _ _ _ c). Qed.

Lemma handleSubmit_eq s c :
  currentCard cards s = Some c →
  blank (input s) = false →
  handleSubmit cards s =
    Next (setIsFlipped true
            (setResults (<[FlashcardData.id c :=
                             recorded c (input s) false (isBookmarked s)]> (results s)) s)).
Proof.
  intros Hc Hb. unfold handleSubmit. rewrite trim_truthy, Hb. simpl.
  by rewrite (saveCurrentResult_Some _ _ _ _ c).
Qed.

Lemma handleSubmit_blank s : blank (input s) = true → handleSubmit cards s = Next s.
Proof. intros Hb. unfold handleSubmit. by rewrite trim_truthy, Hb. Qed.

Lemma results_goToNextCard s : results (goToNextCard s) = results s.
Proof. unfold goToNextCard. by case_decide. Qed.

Lemma results_rehydrate s : results (rehydrate cards s) = results s.
Proof.
  unfold rehydrate. destruct (currentCard cards s); [|done].
  by destruct (results s !! _).
Qed.

Lemma showRetryPrompt_rehydrate s : showRetryPrompt (rehydrate cards s) = showRetryPrompt s.
Proof.
  unfold rehydrate. destruct (currentCard cards s); [|done].
  by destruct (results s !! _).
Qed.

Lemma queue_rehydrate s :
  queue (rehydrate cards s) = queue s ∧ queueIndex (rehydrate cards s) = queueIndex s.
Proof.
  unfold rehydrate. destruct (currentCard cards s); [|done].
  by destruct (results s !! _).
Qed.

Lemma skippedCount_ext s s' : results s = results s' → skippedCount cards s = skippedCount cards s'.
Proof. unfold skippedCount. by intros ->. Qed.

(** The handlers never raise on a rendered screen: the card screen is
    only rendered when [currentCard] is defined. *)
Lemma handle_not_TypeError a s : handle cards a s ≠ TypeError.
Proof.
  unfold handle. destruct (view cards s) eqn:Hv; destruct a; try done.
  - unfold handleRetry, handleFinish. by case_decide.
  - apply view_CardView in Hv as [[c Hc] _].
    destruct (blank (input s)) eqn:Hb.
    + by rewrite handleSubmit_blank.
    + by rewrite (handleSubmit_eq _ c).
  - apply view_CardView in Hv as [[c Hc] _]. by rewrite (handleSkip_eq _ c).
  - unfold handlePrevious. by case_decide.
  - apply view_CardView in Hv as [[c Hc] _]. by rewrite (toggleBookmark_eq _ c).
Qed.

Lemma handle_ledgerKeyed a s s' :
  ledgerKeyed (results s) → handle cards a s = Next s' → ledgerKeyed (results s').
Proof.
  intros Hk. unfold handle.
  destruct (view cards s) eqn:Hv; destruct a; try (by intros [= <-]).
  - unfold handleRetry, handleFinish. case_decide; [by intros [= <-]|done].
  - apply view_CardView in Hv as [[c Hc] _].
    destruct (blank (input s)) eqn:Hb.
    + rewrite handleSubmit_blank by done. by intros [= <-].
    + rewrite (handleSubmit_eq _ c) by done. intros [= <-]. simpl.
      by apply ledgerKeyed_insert.
  - apply view_CardView in Hv as [[c Hc] _]. rewrite (handleSkip_eq _ c) by done.
    intros [= <-]. rewrite results_goToNextCard. simpl. by apply ledgerKeyed_insert.
  - intros [= <-]. by rewrite results_goToNextCard.
  - unfold handlePrevious. case_decide; by intros [= <-].
  - apply view_CardView in Hv as [[c Hc] _]. rewrite (toggleBookmark_eq _ c) by done.
    intros [= <-]. simpl. by apply ledgerKeyed_insert.
Qed.

(** The effects either finish the session with the rendered ledger, or
    leave ledger, queue, cursor and prompt flag alone. *)
Lemma runEffects_Next prev s s' :
  runEffects cards prev s = Next s' →
  results s' = results s ∧ showRetryPrompt s' = showRetryPrompt s ∧
  queue s' = queue s ∧ queueIndex s' = queueIndex s ∧
  (autoFinishDepsChanged cards prev s && showRetryPrompt s
     && bool_decide (skippedCount cards s = 0) = false).
Proof.
  unfold runEffects, handleFinish.
  destruct (autoFinishDepsChanged cards prev s && showRetryPrompt s && _); [done|].
  intros [= <-]. destruct (rehydrateDepsChanged cards prev s); [|done].
  rewrite results_rehydrate, showRetryPrompt_rehydrate.
  by destruct (queue_rehydrate s) as [-> ->].
Qed.

Lemma runEffects_Complete prev s fin :
  runEffects cards prev s = Complete fin → fin = finalResults cards (results s).
Proof.
  unfold runEffects, handleFinish.
  destruct (autoFinishDepsChanged cards prev s && showRetryPrompt s && _); [|done].
  by intros [= <-].
Qed.

Lemma runEffects_not_TypeError prev s : runEffects cards prev s ≠ TypeError.
Proof. unfold runEffects, handleFinish. by destruct (_ && _ && _). Qed.

Lemma runEffects_same s : runEffects cards s s = Next s.
Proof.
  unfold runEffects, rehydrateDepsChanged, autoFinishDepsChanged.
  by rewrite !bool_decide_refl.
Qed.

(** *** Settled renders *)

Lemma dispatch_Next a s s' :
  dispatch cards a (Next s) = Next s' →
  ∃ s1, handle cards a s = Next s1 ∧ runEffects cards s s1 = Next s'.
Proof.
  simpl. destruct (handle cards a s) as [s1| |] eqn:Hh; [eauto|done|done].
Qed.

Lemma dispatch_results a s s' :
  dispatch cards a (Next s) = Next s' → results s' = ledgerAfter cards a s.
Proof.
  intros (s1 & Hh & He)%dispatch_Next. unfold ledgerAfter. rewrite Hh.
  by apply runEffects_Next in He as (-> & _).
Qed.

Lemma dispatch_Complete a s fin :
  dispatch cards a (Next s) = Complete fin →
  fin = finalResults cards (ledgerAfter cards a s).
Proof.
  simpl. unfold ledgerAfter. destruct (handle cards a s) as [s1| |] eqn:Hh.
  - apply runEffects_Complete.
  - intros [= <-]. revert Hh. unfold handle.
    destruct (view cards s); destruct a; try done.
    + unfold handleRetry, handleFinish. case_decide; [done|]. by intros [= <-].
    + by intros [= <-].
    + unfold handleSubmit. destruct (negb _); [done|]. by destruct (saveCurrentResult _ _ _ _ _).
    + unfold handleSkip. by destruct (saveCurrentResult _ _ _ _ _).
    + unfold handlePrevious. by case_decide.
    + unfold toggleBookmark. by destruct (saveCurrentResult _ _ _ _ _).
  - done.
Qed.

Lemma dispatch_Settled a s s' :
  Settled cards s → dispatch cards a (Next s) = Next s' → Settled cards s'.
Proof.
  intros [Hk Hp] (s1 & Hh & He)%dispatch_Next.
  apply runEffects_Next in He as (Hr & Hsp & _ & _ & Hfin).
  split.
  - rewrite Hr. by eapply handle_ledgerKeyed.
  - rewrite Hsp, (skippedCount_ext s' s1 Hr). intros Hs1. rewrite Hs1 in Hfin.
    destruct (decide (skippedCount cards s1 = 0)) as [Hz|]; [|lia].
    rewrite Hz, bool_decide_refl, !andb_true_r in Hfin.
    unfold autoFinishDepsChanged in Hfin. rewrite Hs1, Hz in Hfin.
    apply orb_false_elim in Hfin as [H1 H2].
    apply negb_false_iff, bool_decide_eq_true in H1, H2.
    specialize (Hp H1). lia.
Qed.

Lemma dispatch_terminal a o : (∀ s, o ≠ Next s) → dispatch cards a o = o.
Proof. by destruct o as [s| |]; [intros H; by destruct (H s)| |]. Qed.

Lemma run_snoc acts a : run cards (acts ++ [a]) = dispatch cards a (run cards acts).
Proof. unfold run. by rewrite foldl_app. Qed.

Lemma mount_eq : mount cards = Next (initialState cards).
Proof.
  unfold mount. simpl. f_equal. unfold rehydrate.
  destruct (currentCard cards (initialState cards)); [|done].
  simpl. by rewrite lookup_empty.
Qed.

Lemma run_Settled acts s : run cards acts = Next s → Settled cards s.
Proof.
  revert s. induction acts as [|a acts IH] using rev_ind; intros s.
  - unfold run. simpl. rewrite mount_eq. intros [= <-]. split; [|done].
    intros k x. simpl. by rewrite lookup_empty.
  - rewrite run_snoc. destruct (run cards acts) as [s0| |] eqn:Hr; [|done|done].
    intros Hd. eapply dispatch_Settled; [|done]. by apply IH.
Qed.

Lemma run_not_TypeError acts : run cards acts ≠ TypeError.
Proof.
  induction acts as [|a acts IH] using rev_ind.
  - unfold run. simpl. by rewrite mount_eq.
  - rewrite run_snoc. destruct (run cards acts) as [s0| |] eqn:Hr; [|done|done].
    simpl. pose proof (handle_not_TypeError a s0).
    destruct (handle cards a s0); [apply runEffects_not_TypeError|done|done].
Qed.

(** A finished run finished at some event, from some settled render. *)
Lemma run_Complete_inv acts fin :
  run cards acts = Complete fin →
  ∃ pre a post s,
    acts = pre ++ a :: post ∧ run cards pre = Next s ∧
    dispatch cards a (Next s) = Complete fin.
Proof.
  induction acts as [|a acts IH] using rev_ind.
  - unfold run. simpl. by rewrite mount_eq.
  - rewrite run_snoc. destruct (run cards acts) as [s0|f0|] eqn:Hr.
    + intros Hd. exists acts, a, [], s0. done.
    + simpl. intros [= ->]. destruct (IH eq_refl) as (pre & a0 & post & s & -> & H1 & H2).
      exists pre, a0, (post ++ [a]), s. by rewrite <- app_assoc.
    + done.
Qed.

(** In a settled card screen the prompt flag is down. *)
Lemma Settled_CardView s :
  Settled cards s → view cards s = CardView → showRetryPrompt s = false.
Proof.
  intros [_ Hp] [_ Hv]%view_CardView.
  destruct (showRetryPrompt s); [|done].
  specialize (Hp eq_refl). by rewrite bool_decide_eq_true_2 in Hv.
Qed.

End Facts.

(** ** Total coverage of the finalized results *)

Lemma ledgerAfter_keyed cards a s :
  ledgerKeyed (results s) → ledgerKeyed (ledgerAfter cards a s).
Proof.
  intros Hk. unfold ledgerAfter.
  destruct (handle cards a s) as [s1| |] eqn:Hh; [|done|done].
  by eapply handle_ledgerKeyed.
Qed.

(** C1. Whatever the card store and the events, when the session finishes
    the list handed to [onComplete] has one entry per card, in card-store
    order, entry [i] carrying the id of [cards[i]]; and a card with no entry
    in the ledger of the finishing render gets the synthesized result with
    empty input, skipped, not bookmarked. *)
Theorem total_coverage cards acts fin :
  run cards acts = Complete fin →
  ∃ pre a post s,
    acts = pre ++ a :: post ∧ run cards pre = Next s ∧
    let ledger := ledgerAfter cards a s in
    fin = finalResults cards ledger ∧
    length fin = length cards ∧
    (∀ i c, cards !! i = Some c →
       ∃ r, fin !! i = Some r ∧ UserResult.cardId r = FlashcardData.id c) ∧
    (∀ i c, cards !! i = Some c → ledger !! FlashcardData.id c = None →
       fin !! i = Some (UserResult.mk (FlashcardData.id c) (FlashcardData.chinese c)
                                      (FlashcardData.english c) [] true false)).
Proof.
  intros Hrun.
  destruct (run_Complete_inv _ _ _ Hrun) as (pre & a & post & s & -> & Hpre & Hd).
  exists pre, a, post, s. split; [done|]. split; [done|].
  apply dispatch_Complete in Hd as ->. simpl.
  split; [done|]. split; [apply finalResults_length|].
  pose proof (run_Settled _ _ _ Hpre) as [Hk _].
  apply (ledgerAfter_keyed cards a) in Hk.
  split.
  - intros i c Hc. rewrite (finalResults_lookup _ _ _ _ Hc).
    eexists; split; [done|].
    destruct (ledgerAfter cards a s !! FlashcardData.id c) as [x|] eqn:E; simpl; [|done].
    by apply Hk.
  - intros i c Hc Hnone. by rewrite (finalResults_lookup _ _ _ _ Hc), Hnone.
Qed.

Lemma total_coverage_witness :
  ∃ pre a post s,
    [Type_ (js "Hi"); Submit; Advance; Skip; RetryDecline] = pre ++ a :: post ∧
    run twoCards pre = Next s ∧
    let fin := [recorded (FlashcardData.mk (js "1") [20320; 22909]%N (js "Hello"))
                         (js "Hi") false false;
                recorded (FlashcardData.mk (js "2") [35874; 35874]%N (js "Thanks"))
                         [] true false] in
    let ledger := ledgerAfter twoCards a s in
    fin = finalResults twoCards ledger ∧
    length fin = length twoCards ∧
    (∀ i c, twoCards !! i = Some c →
       ∃ r, fin !! i = Some r ∧ UserResult.cardId r = FlashcardData.id c) ∧
    (∀ i c, twoCards !! i = Some c → ledger !! FlashcardData.id c = None →
       fin !! i = Some (UserResult.mk (FlashcardData.id c) (FlashcardData.chinese c)
                                      (FlashcardData.english c) [] true false)).
Proof.
  apply (total_coverage twoCards [Type_ (js "Hi"); Submit; Advance; Skip; RetryDecline]).
  vm_compute. reflexivity.
Defined.

(** ** The retry prompt is skipped when nothing is skipped *)

Lemma view_RetryPromptView cards s :
  view cards s = RetryPromptView ↔ showRetryPrompt s = true ∧ 0 < skippedCount cards s.
Proof.
  unfold view. destruct (showRetryPrompt s); simpl.
  - case_bool_decide as Hc; [done|].
    destruct (currentCard cards s); split; try done; by intros [_ ?].
  - destruct (currentCard cards s); split; try done; by intros [? _].
Qed.

Lemma autoFinish_fires cards prev s :
  (showRetryPrompt prev = true → 0 < skippedCount cards prev) →
  showRetryPrompt s = true → skippedCount cards s = 0 →
  runEffects cards prev s = Complete (finalResults cards (results s)).
Proof.
  intros Hp Hs Hz. unfold runEffects, autoFinishDepsChanged.
  rewrite Hs, Hz, bool_decide_refl, !andb_true_r.
  destruct (showRetryPrompt prev) eqn:E.
  - specialize (Hp eq_refl). rewrite bool_decide_refl. simpl.
    by rewrite bool_decide_eq_false_2 by lia.
  - by rewrite bool_decide_eq_false_2 by done.
Qed.

(** C4. In every reachable render: (1) with nothing skipped the prompt flag
    is down and the retry prompt is not on screen; (2) when a handler leaves
    the prompt flag up with a skipped count of 0, the render in between does
    not show the prompt and the auto-finish effect hands the finalized list
    to [onComplete] at once; (3) in particular Next Card on the last queue
    position with nothing skipped finishes the session. *)
Theorem retry_prompt_auto_skip cards acts s :
  run cards acts = Next s →
  (skippedCount cards s = 0 →
     showRetryPrompt s = false ∧ view cards s ≠ RetryPromptView) ∧
  (∀ a s', handle cards a s = Next s' →
     showRetryPrompt s' = true → skippedCount cards s' = 0 →
     view cards s' ≠ RetryPromptView ∧
     dispatch cards a (Next s) = Complete (finalResults cards (results s'))) ∧
  (view cards s = CardView →
     ¬ (Z.of_nat (queueIndex s) < Z.of_nat (length (queue s)) - 1)%Z →
     skippedCount cards s = 0 →
     dispatch cards Advance (Next s) = Complete (finalResults cards (results s))).
Proof.
  intros Hrun. pose proof (run_Settled _ _ _ Hrun) as [Hk Hp].
  split; [|split].
  - intros Hz. assert (showRetryPrompt s = false) as Hf.
    { destruct (showRetryPrompt s); [|done]. specialize (Hp eq_refl). lia. }
    split; [done|]. rewrite view_RetryPromptView. intros [? _]. congruence.
  - intros a s' Hh Hs Hz. split.
    + rewrite view_RetryPromptView. lia.
    + simpl. rewrite Hh. by apply autoFinish_fires.
  - intros Hv Hlast Hz. simpl. unfold handle. rewrite Hv.
    unfold goToNextCard. rewrite decide_False by done.
    by rewrite (autoFinish_fires cards s _ Hp).
Qed.

Lemma retry_prompt_auto_skip_witness :
  let s := mkState [0] 0 ∅ 0 false [] false false in
  let cards := [FlashcardData.mk (js "1") [20320; 22909]%N (js "Hello")] in
  (skippedCount cards s = 0 →
     showRetryPrompt s = false ∧ view cards s ≠ RetryPromptView) ∧
  (∀ a s', handle cards a s = Next s' →
     showRetryPrompt s' = true → skippedCount cards s' = 0 →
     view cards s' ≠ RetryPromptView ∧
     dispatch cards a (Next s) = Complete (finalResults cards (results s'))) ∧
  (view cards s = CardView →
     ¬ (Z.of_nat (queueIndex s) < Z.of_nat (length (queue s)) - 1)%Z →
     skippedCount cards s = 0 →
     dispatch cards Advance (Next s) = Complete (finalResults cards (results s))).
Proof.
  apply (retry_prompt_auto_skip
           [FlashcardData.mk (js "1") [20320; 22909]%N (js "Hello")] []).
  vm_compute. reflexivity.
Defined.

(** ** Rejected events *)

Lemma trim_blank t : trim t = [] ↔ blank t = true.
Proof.
  pose proof (trim_truthy t) as H. destruct (blank t); simpl in H.
  - destruct (trim t); naive_solver.
  - destruct (trim t); naive_solver.
Qed.

Lemma dispatch_noop cards a s : handle cards a s = Next s → dispatch cards a (Next s) = Next s.
Proof. intros Hh. simpl. rewrite Hh. apply runEffects_same. Qed.

(** C8. Submit while the edit buffer trims to the empty string, and
    Previous while the cursor is 0, return without enqueuing any state
    update: the whole component state (ledger, queue, cursor and the rest)
    is the same afterwards, in every state, and the outcome is not a raised
    error. *)
Theorem invalid_transitions_are_noops cards s :
  (trim (input s) = [] →
     handleSubmit cards s = Next s ∧ dispatch cards Submit (Next s) = Next s) ∧
  (queueIndex s = 0 →
     handlePrevious s = Next s ∧ dispatch cards Previous (Next s) = Next s).
Proof.
  split.
  - intros Hb%trim_blank. pose proof (handleSubmit_blank cards s Hb) as Hs.
    split; [done|]. apply dispatch_noop. unfold handle.
    by destruct (view cards s).
  - intros Hq. assert (handlePrevious s = Next s) as Hp.
    { unfold handlePrevious. by rewrite decide_False by lia. }
    split; [done|]. apply dispatch_noop. unfold handle.
    by destruct (view cards s).
Qed.

Lemma invalid_transitions_are_noops_witness :
  let s := mkState [0; 1] 0 ∅ 0 false [32; 9; 160]%N false false in
  (handleSubmit twoCards s = Next s ∧ dispatch twoCards Submit (Next s) = Next s) ∧
  (handlePrevious s = Next s ∧ dispatch twoCards Previous (Next s) = Next s).
Proof.
  split.
  - apply (invalid_transitions_are_noops twoCards
             (mkState [0; 1] 0 ∅ 0 false [32; 9; 160]%N false false)).
    reflexivity.
  - apply (invalid_transitions_are_noops twoCards
             (mkState [0; 1] 0 ∅ 0 false [32; 9; 160]%N false false)).
    reflexivity.
Defined.

(** ** An empty card store *)

(** Mounting the component on an empty [cards] prop does not raise: it
    yields the initial state with an empty queue. *)
Lemma empty_store_mounts :
  mount [] = Next (mkState [] 0 ∅ 0 false [] false false) ∧ mount [] ≠ TypeError.
Proof. split; [reflexivity|discriminate]. Qed.

(** C9 (as the code has it). With an empty card store the component mounts
    without error into a state that has no current card; it renders nothing
    (the guard of line 171), no event changes that state, so no card is
    ever shown, no retry prompt appears and [onComplete] is never called. *)
Theorem empty_store_is_inert acts :
  run [] acts = Next (initialState []) ∧
  currentCard [] (initialState []) = None ∧
  view [] (initialState []) = NullView.
Proof.
  split; [|done].
  induction acts as [|a acts IH] using rev_ind.
  - reflexivity.
  - rewrite run_snoc, IH. apply dispatch_noop. by destruct a.
Qed.

(** ** The retry round *)

Lemma filter_seq_sorted (P : nat → Prop) `{!∀ i, Decision (P i)} j n :
  StronglySorted lt (filter P (seq j n)).
Proof.
  revert j. induction n as [|n IH]; intros j; simpl; [constructor|].
  rewrite filter_cons. destruct (decide (P j)); [|apply IH].
  constructor; [apply IH|].
  apply Forall_forall. intros x [_ Hx%elem_of_seq]%list_elem_of_filter. lia.
Qed.

Lemma skippedIndices_sorted cards r : StronglySorted lt (skippedIndices cards r).
Proof. apply filter_seq_sorted. Qed.

Lemma elem_of_skippedIndices cards r i :
  i ∈ skippedIndices cards r ↔
  ∃ c x, cards !! i = Some c ∧ r !! FlashcardData.id c = Some x ∧
         UserResult.isSkipped x = true.
Proof.
  unfold skippedIndices. rewrite list_elem_of_filter, elem_of_seq.
  unfold skippedAt, ledgerSkipped. split.
  - intros [Hs _]. destruct (cards !! i) as [c|]; [|done].
    destruct (r !! FlashcardData.id c) as [x|] eqn:Hx; [|done].
    exists c, x. split; [done|]. split; [done|]. by apply Is_true_true.
  - intros (c & x & Hc & Hx & Hsk). rewrite Hc, Hx. split; [by apply Is_true_true|].
    apply lookup_lt_Some in Hc. lia.
Qed.

Lemma filter_positions_length {A} (f : A → bool) (l0 l : list A) :
  length (filter (λ i, Is_true (match (l0 ++ l) !! i with
                                | Some c => f c
                                | None => false
                                end)) (seq (length l0) (length l))) =
  length (filter (λ c, Is_true (f c)) l).
Proof.
  revert l0. induction l as [|c l IH]; intros l0; [done|].
  simpl. rewrite !filter_cons.
  rewrite list_lookup_middle by done.
  specialize (IH (l0 ++ [c])). rewrite <- app_assoc, length_app in IH. simpl in IH.
  replace (length l0 + 1) with (S (length l0)) in IH by lia.
  destruct (decide (Is_true (f c))); simpl; by rewrite IH.
Qed.

Lemma skippedIndices_length cards s :
  length (skippedIndices cards (results s)) = skippedCount cards s.
Proof. apply (filter_positions_length _ [] cards). Qed.

Lemma handleRetry_some cards s :
  skippedIndices cards (results s) ≠ [] →
  handleRetry cards s =
    Next (setShowRetryPrompt false
            (setQueueIndex 0 (setQueue (skippedIndices cards (results s)) s))).
Proof.
  intros Hne. unfold handleRetry. rewrite decide_True; [done|].
  destruct (skippedIndices cards (results s)); [done|simpl; lia].
Qed.

Lemma handleRetry_none cards s :
  skippedIndices cards (results s) = [] →
  handleRetry cards s = Complete (finalResults cards (results s)).
Proof. intros He. unfold handleRetry. rewrite He. by rewrite decide_False by (simpl; lia). Qed.

(** C3. For every state: the positions [handleRetry] collects are exactly
    the card positions whose ledger entry is marked skipped, in increasing
    position (card-store order, whatever the order the entries were
    written in); when there is one, it becomes the queue, the cursor goes
    to 0 and the prompt flag is dropped; when there is none, the session
    finishes with the finalized list.  From the retry prompt, accepting
    therefore leads to a card screen on the first skipped card.  On cards
    [A,B,C,D] with B and D skipped, accepting gives queue [[1;3]] (B then
    D), and finishing after the retry pass lists A, B, C, D in that order
    with what the retry pass recorded for B and D. *)
Theorem retry_accept :
  (∀ cards s,
     let skipped := skippedIndices cards (results s) in
     (∀ i, i ∈ skipped ↔
           ∃ c x, cards !! i = Some c ∧ results s !! FlashcardData.id c = Some x ∧
                  UserResult.isSkipped x = true) ∧
     StronglySorted lt skipped ∧
     (skipped ≠ [] →
        handleRetry cards s =
          Next (setShowRetryPrompt false (setQueueIndex 0 (setQueue skipped s)))) ∧
     (skipped = [] →
        handleRetry cards s = Complete (finalResults cards (results s))) ∧
     (view cards s = RetryPromptView →
        ∃ s', dispatch cards RetryAccept (Next s) = Next s' ∧
              queue s' = skipped ∧ queueIndex s' = 0 ∧ results s' = results s ∧
              showRetryPrompt s' = false ∧ view cards s' = CardView)) ∧
  (let round1 := [Type_ (js "a"); Submit; Advance; Skip;
                  Type_ (js "c"); Submit; Advance; Skip] in
   let cardA := FlashcardData.mk (js "A") (js "a") (js "alpha") in
   let cardB := FlashcardData.mk (js "B") (js "b") (js "beta") in
   let cardC := FlashcardData.mk (js "C") (js "c") (js "gamma") in
   let cardD := FlashcardData.mk (js "D") (js "d") (js "delta") in
   (∃ s, run abcd round1 = Next s ∧ view abcd s = RetryPromptView ∧
         queue s = [0; 1; 2; 3]) ∧
   (∃ s, run abcd (round1 ++ [RetryAccept]) = Next s ∧ view abcd s = CardView ∧
         queue s = [1; 3] ∧ queueIndex s = 0 ∧ currentCard abcd s = Some cardB) ∧
   run abcd (round1 ++ [RetryAccept; Type_ (js "b"); Submit; Advance; Skip; RetryDecline]) =
     Complete [recorded cardA (js "a") false false; recorded cardB (js "b") false false;
               recorded cardC (js "c") false false; recorded cardD [] true false]).
Proof.
  split.
  - intros cards s skipped. subst skipped.
    split; [apply elem_of_skippedIndices|].
    split; [apply skippedIndices_sorted|].
    split; [apply handleRetry_some|].
    split; [apply handleRetry_none|].
    intros Hv. pose proof Hv as [Hsp Hcount]%view_RetryPromptView.
    rewrite <- skippedIndices_length in Hcount.
    assert (skippedIndices cards (results s) ≠ []) as Hne.
    { intros He. rewrite He in Hcount. simpl in Hcount. lia. }
    simpl. unfold handle. rewrite Hv, (handleRetry_some _ _ Hne).
    set (s1 := setShowRetryPrompt false _).
    destruct (runEffects cards s s1) as [s'|fin|] eqn:He.
    + apply runEffects_Next in He as (Hr & Hp & Hq & Hi & _).
      exists s'. split; [done|]. rewrite Hq, Hi, Hr, Hp.
      split; [done|]. split; [done|]. split; [done|]. split; [done|].
      unfold view, currentCard, currentCardIndex. rewrite Hp, Hq, Hi. simpl.
      destruct (skippedIndices cards (results s)) as [|i l] eqn:Hl; [done|]. simpl.
      assert (i ∈ skippedIndices cards (results s)) as Hin by (rewrite Hl; left).
      apply elem_of_skippedIndices in Hin as (c & _ & -> & _). done.
    + exfalso. revert He. unfold runEffects. simpl.
      rewrite andb_false_r. simpl. by destruct (rehydrateDepsChanged _ _ _).
    + by apply runEffects_not_TypeError in He.
  - simpl. split; [|split].
    + eexists. split; [vm_compute; reflexivity|]. split; reflexivity.
    + eexists. split; [vm_compute; reflexivity|]. repeat split; reflexivity.
    + vm_compute. reflexivity.
Qed.

(** ** Events of the card screen, effects included *)

Section CardScreen.

Variable cards : list FlashcardData.t.

Lemma runEffects_continue prev s :
  (showRetryPrompt s = true → 0 < skippedCount cards s) →
  runEffects cards prev s =
    Next (if rehydrateDepsChanged cards prev s then rehydrate cards s else s).
Proof.
  intros Hp. unfold runEffects.
  destruct (showRetryPrompt s) eqn:E.
  - specialize (Hp eq_refl). rewrite (bool_decide_eq_false_2 (_ = 0)) by lia.
    by rewrite andb_false_r.
  - by rewrite andb_false_r.
Qed.

Lemma isFlipped_rehydrate s : isFlipped (rehydrate cards s) = isFlipped s.
Proof.
  unfold rehydrate. destruct (currentCard cards s); [|done].
  by destruct (results s !! _).
Qed.

(** Rehydrating right after the current card's entry was written with
    the live buffer changes nothing. *)
Lemma rehydrate_fresh s c skipped :
  currentCard cards s = Some c →
  results s !! FlashcardData.id c = Some (recorded c (input s) skipped (isBookmarked s)) →
  rehydrate cards s = s.
Proof. intros Hc Hr. unfold rehydrate. rewrite Hc, Hr. by destruct s. Qed.

Lemma rehydrateDepsChanged_write prev s :
  resultsRef s = S (resultsRef prev) → rehydrateDepsChanged cards prev s = true.
Proof.
  intros Hr. unfold rehydrateDepsChanged.
  rewrite (bool_decide_eq_false_2 (resultsRef prev = _)) by lia.
  simpl. by rewrite orb_true_r.
Qed.

Lemma view_prompt_down s c :
  showRetryPrompt s = false → currentCard cards s = Some c → view cards s = CardView.
Proof. intros Hp Hc. unfold view. by rewrite Hp, Hc. Qed.

Lemma dispatch_Type s t :
  view cards s = CardView → dispatch cards (Type_ t) (Next s) = Next (setInput t s).
Proof.
  intros Hv. simpl. unfold handle. rewrite Hv.
  unfold runEffects, rehydrateDepsChanged, autoFinishDepsChanged.
  simpl. unfold skippedCount. simpl. by rewrite !bool_decide_refl.
Qed.

Lemma dispatch_ToggleBookmark s c :
  Settled cards s → view cards s = CardView → currentCard cards s = Some c →
  dispatch cards ToggleBookmark (Next s) =
    Next (setResults (<[FlashcardData.id c :=
                          recorded c (input s) false (negb (isBookmarked s))]> (results s))
                     (setIsBookmarked (negb (isBookmarked s)) s)).
Proof.
  intros Hs Hv Hc. pose proof (Settled_CardView _ _ Hs Hv) as Hp.
  simpl. unfold handle. rewrite Hv, (toggleBookmark_eq _ _ c Hc).
  set (s1 := setResults _ _).
  rewrite runEffects_continue by (simpl; congruence).
  rewrite rehydrateDepsChanged_write by done.
  f_equal. apply (rehydrate_fresh _ c false); [done|].
  simpl. by rewrite lookup_insert_eq.
Qed.

Lemma dispatch_Submit s c :
  Settled cards s → view cards s = CardView → currentCard cards s = Some c →
  blank (input s) = false →
  dispatch cards Submit (Next s) =
    Next (setIsFlipped true
            (setResults (<[FlashcardData.id c :=
                             recorded c (input s) false (isBookmarked s)]> (results s)) s)).
Proof.
  intros Hs Hv Hc Hb. pose proof (Settled_CardView _ _ Hs Hv) as Hp.
  simpl. unfold handle. rewrite Hv, (handleSubmit_eq _ _ c Hc Hb).
  set (s1 := setIsFlipped _ _).
  rewrite runEffects_continue by (simpl; congruence).
  rewrite rehydrateDepsChanged_write by done.
  f_equal. apply (rehydrate_fresh _ c false); [done|].
  simpl. by rewrite lookup_insert_eq.
Qed.

Lemma finalResults_by_id r i c c' x :
  cards !! i = Some c' → FlashcardData.id c' = FlashcardData.id c →
  r !! FlashcardData.id c = Some x → finalResults cards r !! i = Some x.
Proof.
  intros Hc Hid Hr. rewrite (finalResults_lookup _ _ _ _ Hc), Hid, Hr. done.
Qed.

End CardScreen.

(** ** Bookmark toggles *)

(** On two cards: skip card 1, go back to it, toggle its bookmark.  Before
    the toggle the entry of card 1 is marked skipped, after it the mark is
    gone. *)
Lemma toggleBookmark_resets_skip :
  shownCard twoCards (run twoCards [Skip; Previous]) = Some (js "1") ∧
  UserResult.isSkipped <$> entryOf (run twoCards [Skip; Previous]) (js "1") = Some true ∧
  UserResult.isSkipped <$> entryOf (run twoCards [Skip; Previous; ToggleBookmark]) (js "1")
    = Some false.
Proof. vm_compute. done. Qed.

(** C2 (as the code has it). In every reachable card screen, toggling the
    bookmark of the current card upserts its ledger entry with the bookmark
    flag flipped, the text of the live edit buffer as [userInput], and
    [isSkipped = false] whatever the prior entry said; the other entries,
    the buffer text, the queue and the cursor are untouched. *)
Theorem toggleBookmark_upsert cards acts s c :
  run cards acts = Next s → view cards s = CardView → currentCard cards s = Some c →
  ∃ s', dispatch cards ToggleBookmark (Next s) = Next s' ∧
        results s' !! FlashcardData.id c =
          Some (UserResult.mk (FlashcardData.id c) (FlashcardData.chinese c)
                              (FlashcardData.english c) (input s) false
                              (negb (isBookmarked s))) ∧
        (∀ k, k ≠ FlashcardData.id c → results s' !! k = results s !! k) ∧
        isBookmarked s' = negb (isBookmarked s) ∧ input s' = input s ∧
        queue s' = queue s ∧ queueIndex s' = queueIndex s.
Proof.
  intros Hrun Hv Hc. apply run_Settled in Hrun.
  eexists. split; [by apply dispatch_ToggleBookmark|]. simpl.
  split; [by rewrite lookup_insert_eq|].
  split; [|done]. intros k Hk. by rewrite lookup_insert_ne.
Qed.

Lemma toggleBookmark_upsert_witness :
  let c := FlashcardData.mk (js "1") [20320; 22909]%N (js "Hello") in
  let s := mkState [0; 1] 0 ∅ 0 false [] false false in
  ∃ s', dispatch twoCards ToggleBookmark (Next s) = Next s' ∧
        results s' !! FlashcardData.id c =
          Some (UserResult.mk (FlashcardData.id c) (FlashcardData.chinese c)
                              (FlashcardData.english c) (input s) false
                              (negb (isBookmarked s))) ∧
        (∀ k, k ≠ FlashcardData.id c → results s' !! k = results s !! k) ∧
        isBookmarked s' = negb (isBookmarked s) ∧ input s' = input s ∧
        queue s' = queue s ∧ queueIndex s' = queueIndex s.
Proof.
  apply (toggleBookmark_upsert twoCards []); reflexivity.
Defined.

(** C10. In every reachable card screen, typing [t] and then toggling the
    bookmark files [t] as the current card's [userInput], and the finalized
    list built from that ledger reports [t] for the card, although nothing
    was submitted.  E.g. on a single card: type, toggle, Next Card. *)
Theorem toggleBookmark_persists_typed_text :
  (∀ cards acts s c t,
     run cards acts = Next s → view cards s = CardView → currentCard cards s = Some c →
     ∃ s', run cards (acts ++ [Type_ t; ToggleBookmark]) = Next s' ∧
           results s' !! FlashcardData.id c =
             Some (recorded c t false (negb (isBookmarked s))) ∧
           (∀ i c', cards !! i = Some c' → FlashcardData.id c' = FlashcardData.id c →
              finalResults cards (results s') !! i =
                Some (recorded c t false (negb (isBookmarked s))))) ∧
  (let card := FlashcardData.mk (js "1") [20320; 22909]%N (js "Hello") in
   run [card] [Type_ (js "draft"); ToggleBookmark; Advance] =
     Complete [recorded card (js "draft") false true]).
Proof.
  split; [|vm_compute; reflexivity].
  intros cards acts s c t Hrun Hv Hc.
  pose proof (run_Settled _ _ _ Hrun) as Hs.
  pose proof (dispatch_Type cards s t Hv) as Ht.
  assert (run cards (acts ++ [Type_ t]) = Next (setInput t s)) as Hrun1.
  { by rewrite run_snoc, Hrun. }
  pose proof (run_Settled _ _ _ Hrun1) as Hs1.
  eexists. split.
  - replace (acts ++ [Type_ t; ToggleBookmark])
      with ((acts ++ [Type_ t]) ++ [ToggleBookmark]) by by rewrite <- app_assoc.
    rewrite run_snoc, Hrun1. by apply (dispatch_ToggleBookmark cards _ c).
  - simpl. split; [by rewrite lookup_insert_eq|].
    intros i c' Hc' Hid. apply (finalResults_by_id cards _ i c c'); [done..|].
    by rewrite lookup_insert_eq.
Qed.

Lemma toggleBookmark_persists_typed_text_witness :
  let c := FlashcardData.mk (js "1") [20320; 22909]%N (js "Hello") in
  ∃ s', run twoCards ([] ++ [Type_ (js "draft"); ToggleBookmark]) = Next s' ∧
        results s' !! FlashcardData.id c = Some (recorded c (js "draft") false true) ∧
        (∀ i c', twoCards !! i = Some c' → FlashcardData.id c' = FlashcardData.id c →
           finalResults twoCards (results s') !! i =
             Some (recorded c (js "draft") false true)).
Proof.
  apply (proj1 toggleBookmark_persists_typed_text twoCards []
           (mkState [0; 1] 0 ∅ 0 false [] false false)
           (FlashcardData.mk (js "1") [20320; 22909]%N (js "Hello")) (js "draft"));
    reflexivity.
Defined.

(** ** Last write wins *)

(** C6. The ledger is a map from card id to one result.  Saving a result
    for the current card makes it the entry of that id whatever was there
    before, leaves every other id alone and adds no second entry (the set
    of ids grows by at most that id).  And in every reachable card screen,
    submitting [A] and then [B] for the card leaves [B] as its recorded
    input, which is what the finalized list built from that ledger
    reports. *)
Theorem last_write_wins :
  (∀ cards s c skipped text bookmarked,
     currentCard cards s = Some c →
     ∃ s', saveCurrentResult cards skipped text bookmarked s = Some s' ∧
           results s' !! FlashcardData.id c =
             Some (UserResult.mk (FlashcardData.id c) (FlashcardData.chinese c)
                                 (FlashcardData.english c) text skipped bookmarked) ∧
           (∀ k, k ≠ FlashcardData.id c → results s' !! k = results s !! k) ∧
           dom (results s') = {[FlashcardData.id c]} ∪ dom (results s) ∧
           (is_Some (results s !! FlashcardData.id c) →
              size (results s') = size (results s))) ∧
  (∀ cards acts s c A B,
     run cards acts = Next s → view cards s = CardView → currentCard cards s = Some c →
     trim A ≠ [] → trim B ≠ [] →
     ∃ s', run cards (acts ++ [Type_ A; Submit; Type_ B; Submit]) = Next s' ∧
           (∃ r, results s' !! FlashcardData.id c = Some r ∧ UserResult.userInput r = B) ∧
           (∀ i c', cards !! i = Some c' → FlashcardData.id c' = FlashcardData.id c →
              ∃ r, finalResults cards (results s') !! i = Some r ∧
                   UserResult.userInput r = B)).
Proof.
  split.
  - intros cards s c skipped text bookmarked Hc.
    rewrite (saveCurrentResult_Some _ _ _ _ _ c Hc). eexists. split; [done|]. simpl.
    split; [by rewrite lookup_insert_eq|].
    split; [intros k Hk; by rewrite lookup_insert_ne|].
    split; [by rewrite dom_insert_L|].
    intros [x Hx]. rewrite <- (insert_delete_id (results s) _ _ Hx) at 2.
    rewrite <- insert_delete_eq.
    by rewrite !map_size_insert_None by apply lookup_delete_eq.
  - intros cards acts s c A B Hrun Hv Hc HA HB.
    assert (blank A = false) as HbA.
    { destruct (blank A) eqn:E; [|done]. by apply trim_blank in E. }
    assert (blank B = false) as HbB.
    { destruct (blank B) eqn:E; [|done]. by apply trim_blank in E. }
    pose proof (Settled_CardView _ _ (run_Settled _ _ _ Hrun) Hv) as Hp.
    (* type A *)
    assert (run cards (acts ++ [Type_ A]) = Next (setInput A s)) as H1.
    { rewrite run_snoc, Hrun. by apply dispatch_Type. }
    (* submit A *)
    set (s2 := setIsFlipped true
                 (setResults (<[FlashcardData.id c := recorded c A false (isBookmarked s)]>
                                (results s)) (setInput A s))).
    assert (run cards ((acts ++ [Type_ A]) ++ [Submit]) = Next s2) as H2.
    { rewrite run_snoc, H1.
      rewrite (dispatch_Submit cards _ c); [done|by eapply run_Settled|done..]. }
    assert (view cards s2 = CardView) as Hv2 by by apply (view_prompt_down _ _ c).
    (* type B *)
    assert (run cards (((acts ++ [Type_ A]) ++ [Submit]) ++ [Type_ B])
            = Next (setInput B s2)) as H3.
    { rewrite run_snoc, H2. by apply dispatch_Type. }
    (* submit B *)
    eexists. split.
    + replace (acts ++ [Type_ A; Submit; Type_ B; Submit])
        with ((((acts ++ [Type_ A]) ++ [Submit]) ++ [Type_ B]) ++ [Submit])
        by by rewrite <- !app_assoc.
      rewrite run_snoc, H3.
      rewrite (dispatch_Submit cards _ c); [reflexivity|by eapply run_Settled|done..].
    + simpl. split.
      * eexists. split; [by rewrite lookup_insert_eq|done].
      * intros i c' Hc' Hid. eexists. split.
        -- apply (finalResults_by_id cards _ i c c'); [done..|].
           by rewrite lookup_insert_eq.
        -- done.
Qed.

Lemma last_write_wins_witness :
  let c := FlashcardData.mk (js "1") [20320; 22909]%N (js "Hello") in
  ∃ s', run twoCards ([] ++ [Type_ (js "A"); Submit; Type_ (js "B"); Submit]) = Next s' ∧
        (∃ r, results s' !! FlashcardData.id c = Some r ∧
              UserResult.userInput r = js "B") ∧
        (∀ i c', twoCards !! i = Some c' → FlashcardData.id c' = FlashcardData.id c →
           ∃ r, finalResults twoCards (results s') !! i = Some r ∧
                UserResult.userInput r = js "B").
Proof.
  apply (proj2 last_write_wins twoCards []
           (mkState [0; 1] 0 ∅ 0 false [] false false)
           (FlashcardData.mk (js "1") [20320; 22909]%N (js "Hello")) (js "A") (js "B"));
    [reflexivity | reflexivity | reflexivity | discriminate | discriminate].
Defined.

(** ** The edit buffer and the ledger *)

Section Buffer.

Variable cards : list FlashcardData.t.

Lemma currentCard_of_ref s : currentCard cards s = i ← currentCardRef cards s; cards !! i.
Proof.
  unfold currentCard, currentCardRef. destruct (currentCardIndex s) as [i|]; [|done].
  simpl. case_decide as Hi; [done|]. apply lookup_ge_None. lia.
Qed.

Lemma rehydrate_loaded s :
  BookmarkLoaded cards (rehydrate cards s) ∧ InputLoaded cards (rehydrate cards s).
Proof.
  assert (currentCard cards (rehydrate cards s) = currentCard cards s) as Hcur.
  { unfold currentCard, currentCardIndex. by destruct (queue_rehydrate cards s) as [-> ->]. }
  split; intros c; rewrite Hcur, results_rehydrate; intros Hc;
    unfold rehydrate; rewrite Hc; by destruct (results s !! FlashcardData.id c).
Qed.

(** A handler that allocates no new [results] object leaves the ledger and
    the bookmark flag alone, and the text as well unless it is typing. *)
Lemma handle_unwritten a s s1 :
  handle cards a s = Next s1 → resultsRef s1 = resultsRef s →
  results s1 = results s ∧ isBookmarked s1 = isBookmarked s ∧
  ((∀ t, a ≠ Type_ t) → input s1 = input s).
Proof.
  unfold handle. destruct (view cards s) eqn:Hv; destruct a; try (by intros [= <-]).
  - unfold handleRetry, handleFinish. case_decide; [by intros [= <-]|done].
  - intros [= <-] _. split; [done|]. split; [done|]. intros Ht. by destruct (Ht text).
  - apply view_CardView in Hv as [[c Hc] _].
    destruct (blank (input s)) eqn:Hb.
    + rewrite handleSubmit_blank by done. by intros [= <-].
    + rewrite (handleSubmit_eq _ _ c) by done. intros [= <-]. simpl. lia.
  - apply view_CardView in Hv as [[c Hc] _]. rewrite (handleSkip_eq _ _ c) by done.
    intros [= <-]. unfold goToNextCard. case_decide; simpl; lia.
  - intros [= <-]. unfold goToNextCard. by case_decide.
  - unfold handlePrevious. case_decide; by intros [= <-].
  - apply view_CardView in Hv as [[c Hc] _]. rewrite (toggleBookmark_eq _ _ c) by done.
    intros [= <-]. simpl. lia.
Qed.

Lemma rehydrateDepsChanged_false prev s :
  rehydrateDepsChanged cards prev s = false →
  currentCard cards prev = currentCard cards s ∧ resultsRef s = resultsRef prev.
Proof.
  unfold rehydrateDepsChanged.
  intros [[H1 H2]%orb_false_elim _]%orb_false_elim.
  apply negb_false_iff, bool_decide_eq_true in H1, H2.
  by rewrite !currentCard_of_ref, H1.
Qed.

Lemma bookmarkLoaded_step a s s' :
  BookmarkLoaded cards s → dispatch cards a (Next s) = Next s' → BookmarkLoaded cards s'.
Proof.
  intros Hl (s1 & Hh & He)%dispatch_Next. revert He. unfold runEffects.
  destruct (_ && _ && _); [done|]. intros [= <-].
  destruct (rehydrateDepsChanged cards s s1) eqn:Hd; [apply rehydrate_loaded|].
  apply rehydrateDepsChanged_false in Hd as [Hcur Href].
  destruct (handle_unwritten _ _ _ Hh Href) as (Hr & Hb & _).
  intros c. rewrite <- Hcur, Hr, Hb. apply Hl.
Qed.

(** Every event but typing keeps the text of the buffer loaded. *)
Lemma inputLoaded_step a s s' :
  (∀ t, a ≠ Type_ t) →
  InputLoaded cards s → dispatch cards a (Next s) = Next s' → InputLoaded cards s'.
Proof.
  intros Ha Hl (s1 & Hh & He)%dispatch_Next. revert He. unfold runEffects.
  destruct (_ && _ && _); [done|]. intros [= <-].
  destruct (rehydrateDepsChanged cards s s1) eqn:Hd; [apply rehydrate_loaded|].
  apply rehydrateDepsChanged_false in Hd as [Hcur Href].
  destruct (handle_unwritten _ _ _ Hh Href) as (Hr & _ & Hi).
  intros c. rewrite <- Hcur, Hr, (Hi Ha). apply Hl.
Qed.

Lemma run_BookmarkLoaded acts s : run cards acts = Next s → BookmarkLoaded cards s.
Proof.
  revert s. induction acts as [|a acts IH] using rev_ind; intros s.
  - change (run cards []) with (mount cards). rewrite mount_eq. intros [= <-] c _.
    simpl. by rewrite lookup_empty.
  - rewrite run_snoc. destruct (run cards acts) as [s0| |] eqn:Hr; [|done|done].
    apply bookmarkLoaded_step. by apply IH.
Qed.

End Buffer.

(** ** Text typed since the buffer was loaded *)

Section Typed.

Variable cards : list FlashcardData.t.

Lemma typedFrom_snoc o typed acts a :
  typedFrom cards o typed (acts ++ [a]) =
  typingStep cards a (foldl (λ o a, dispatch cards a o) o acts) (typedFrom cards o typed acts).
Proof.
  revert o typed. induction acts as [|x acts IH]; intros o typed; [done|].
  simpl. apply IH.
Qed.

Lemma typedSinceLoad_snoc acts a :
  typedSinceLoad cards (acts ++ [a]) =
  typingStep cards a (run cards acts) (typedSinceLoad cards acts).
Proof. apply typedFrom_snoc. Qed.

(** As long as nothing was typed since the effect last ran, the text of the
    buffer is the saved answer of the current card, or the empty string. *)
Lemma run_InputLoaded acts s :
  run cards acts = Next s → typedSinceLoad cards acts = false → InputLoaded cards s.
Proof.
  revert s. induction acts as [|a acts IH] using rev_ind; intros s.
  - change (run cards []) with (mount cards). rewrite mount_eq. intros [= <-] _ c _.
    simpl. by rewrite lookup_empty.
  - rewrite run_snoc, typedSinceLoad_snoc.
    destruct (run cards acts) as [s0| |] eqn:Hr; [|done|done].
    intros (s1 & Hh & He)%dispatch_Next. unfold typingStep. rewrite Hh.
    revert He. unfold runEffects. destruct (_ && _ && _); [done|]. intros [= <-].
    destruct (rehydrateDepsChanged cards s0 s1) eqn:Hd; [intros _; apply rehydrate_loaded|].
    intros Htyped.
    apply rehydrateDepsChanged_false in Hd as [Hcur Href].
    destruct (handle_unwritten _ _ _ _ Hh Href) as (Hres & _ & Hin).
    assert (typedSinceLoad cards acts = false ∧ input s1 = input s0) as [Hold Hsame].
    { destruct a; try (split; [done|apply Hin; by intros t]).
      destruct (view cards s0) eqn:Hv; try done.
      - split; [done|]. revert Hh. unfold handle. rewrite Hv. by intros [= <-].
      - split; [done|]. revert Hh. unfold handle. rewrite Hv. by intros [= <-]. }
    intros c. rewrite <- Hcur, Hres, Hsame. by apply IH.
Qed.

End Typed.

(** ** Skip *)

Lemma currentCard_position cards s c :
  currentCard cards s = Some c → ∃ i, cards !! i = Some c.
Proof.
  unfold currentCard. destruct (currentCardIndex s) as [i|]; [|done]. simpl. eauto.
Qed.

Lemma skippedCount_pos cards s i c :
  cards !! i = Some c → ledgerSkipped (results s) (FlashcardData.id c) = true →
  0 < skippedCount cards s.
Proof.
  intros Hc Hs. unfold skippedCount.
  assert (c ∈ filter (λ c, Is_true (ledgerSkipped (results s) (FlashcardData.id c))) cards)
    as Hin.
  { apply list_elem_of_filter. split; [by apply Is_true_true|].
    by eapply list_elem_of_lookup_2. }
  destruct (filter _ cards); [by apply elem_of_nil in Hin|simpl; lia].
Qed.

(** On two cards.  Card 1 has no entry, "draft" is typed and the card is
    skipped: the entry filed has [userInput] "draft", not the empty string.
    Card 1 holds the submitted answer "Hi", "xyz" is typed and the card is
    skipped: the entry filed has "xyz", the held "Hi" is gone. *)
Lemma skip_files_unsubmitted_text :
  entryOf (run twoCards [Type_ (js "draft")]) (js "1") = None ∧
  shownCard twoCards (run twoCards [Type_ (js "draft")]) = Some (js "1") ∧
  UserResult.userInput <$> entryOf (run twoCards [Type_ (js "draft"); Skip]) (js "1")
    = Some (js "draft") ∧
  UserResult.userInput
    <$> entryOf (run twoCards [Type_ (js "Hi"); Submit; Type_ (js "xyz")]) (js "1")
    = Some (js "Hi") ∧
  shownCard twoCards (run twoCards [Type_ (js "Hi"); Submit; Type_ (js "xyz")])
    = Some (js "1") ∧
  UserResult.userInput
    <$> entryOf (run twoCards [Type_ (js "Hi"); Submit; Type_ (js "xyz"); Skip]) (js "1")
    = Some (js "xyz").
Proof. vm_compute. done. Qed.

(** C7 (as the code has it). In every reachable card screen, flipped or
    not, Skip files for the current card a result marked skipped whose
    [userInput] is the text of the live edit buffer and whose
    [isBookmarked] is the buffer's flag.  That flag is the bookmark flag of
    the card's prior entry, or [false] without one; the text is the
    [userInput] of the prior entry, or the empty string without one,
    provided nothing was typed since the rehydration effect last ran
    (typed, unsubmitted text is filed otherwise).  Skip then does what Next
    Card does on the updated state: the cursor moves up by one, or, on the
    last queue position, the prompt flag is raised and the retry prompt is
    shown. *)
Theorem skip_records_and_advances cards acts s c :
  run cards acts = Next s → view cards s = CardView → currentCard cards s = Some c →
  let entry := UserResult.mk (FlashcardData.id c) (FlashcardData.chinese c)
                             (FlashcardData.english c) (input s) true (isBookmarked s) in
  let s1 := setResults (<[FlashcardData.id c := entry]> (results s)) s in
  isBookmarked s =
    default false (UserResult.isBookmarked <$> results s !! FlashcardData.id c) ∧
  (typedSinceLoad cards acts = false →
     input s = default [] (UserResult.userInput <$> results s !! FlashcardData.id c)) ∧
  handle cards Skip s = Next (goToNextCard s1) ∧
  handle cards Skip s = handle cards Advance s1 ∧
  ∃ s', dispatch cards Skip (Next s) = Next s' ∧
        results s' = <[FlashcardData.id c := entry]> (results s) ∧
        queue s' = queue s ∧ isFlipped s' = false ∧
        (queueIndex s + 1 < length (queue s) →
           queueIndex s' = queueIndex s + 1 ∧ showRetryPrompt s' = false) ∧
        (length (queue s) ≤ queueIndex s + 1 →
           queueIndex s' = queueIndex s ∧ showRetryPrompt s' = true ∧
           view cards s' = RetryPromptView).
Proof.
  intros Hrun Hv Hc entry s1.
  pose proof (Settled_CardView _ _ (run_Settled _ _ _ Hrun) Hv) as Hp.
  assert (handle cards Skip s = Next (goToNextCard s1)) as Hh.
  { unfold handle. rewrite Hv. by rewrite (handleSkip_eq _ _ c Hc). }
  assert (0 < skippedCount cards (goToNextCard s1)) as Hpos.
  { destruct (currentCard_position _ _ _ Hc) as [i Hi].
    apply (skippedCount_pos cards _ i c Hi). rewrite results_goToNextCard.
    unfold ledgerSkipped. subst s1. simpl. by rewrite lookup_insert_eq. }
  split; [by apply (run_BookmarkLoaded _ _ _ Hrun)|].
  split; [|split; [done|split]].
  - intros Htyped. by apply (run_InputLoaded cards acts s Hrun Htyped c).
  - rewrite Hh. unfold handle.
    by rewrite (view_prompt_down cards s1 c Hp Hc).
  - simpl. rewrite Hh.
    rewrite runEffects_continue by done.
    rewrite rehydrateDepsChanged_write
      by (unfold goToNextCard; subst s1; by case_decide).
    eexists. split; [done|].
    rewrite results_rehydrate, isFlipped_rehydrate, showRetryPrompt_rehydrate.
    destruct (queue_rehydrate cards (goToNextCard s1)) as [-> ->].
    split; [by rewrite results_goToNextCard|].
    split; [unfold goToNextCard; by case_decide|].
    split; [unfold goToNextCard; by case_decide|].
    split.
    + intros Hlt. unfold goToNextCard. rewrite decide_True by (simpl; lia). done.
    + intros Hlast. unfold goToNextCard at 1 2.
      rewrite !decide_False by (simpl; lia). simpl.
      split; [done|]. split; [done|].
      apply view_RetryPromptView. rewrite showRetryPrompt_rehydrate. split.
      * unfold goToNextCard. by rewrite decide_False by (simpl; lia).
      * rewrite (skippedCount_ext cards _ (goToNextCard s1)); [done|].
        apply results_rehydrate.
Qed.

Lemma skip_records_and_advances_witness :
  let c := FlashcardData.mk (js "2") [35874; 35874]%N (js "Thanks") in
  let s := mkState [0; 1] 1 ∅ 0 false [] false false in
  let entry := UserResult.mk (FlashcardData.id c) (FlashcardData.chinese c)
                             (FlashcardData.english c) (input s) true (isBookmarked s) in
  let s1 := setResults (<[FlashcardData.id c := entry]> (results s)) s in
  isBookmarked s =
    default false (UserResult.isBookmarked <$> results s !! FlashcardData.id c) ∧
  (typedSinceLoad twoCards [Advance] = false →
     input s = default [] (UserResult.userInput <$> results s !! FlashcardData.id c)) ∧
  handle twoCards Skip s = Next (goToNextCard s1) ∧
  handle twoCards Skip s = handle twoCards Advance s1 ∧
  ∃ s', dispatch twoCards Skip (Next s) = Next s' ∧
        results s' = <[FlashcardData.id c := entry]> (results s) ∧
        queue s' = queue s ∧ isFlipped s' = false ∧
        (queueIndex s + 1 < length (queue s) →
           queueIndex s' = queueIndex s + 1 ∧ showRetryPrompt s' = false) ∧
        (length (queue s) ≤ queueIndex s + 1 →
           queueIndex s' = queueIndex s ∧ showRetryPrompt s' = true ∧
           view twoCards s' = RetryPromptView).
Proof.
  apply (skip_records_and_advances twoCards [Advance]); reflexivity.
Defined.

(** ** Cards that were never answered *)

Section Unanswered.

Variable cards : list FlashcardData.t.

Lemma occursFrom_snoc a k o acts x :
  occursFrom cards a k o (acts ++ [x]) =
  occursFrom cards a k o acts
  || (bool_decide (x = a)
      && bool_decide (shownCard cards (foldl (λ o a, dispatch cards a o) o acts) = Some k)).
Proof.
  revert o. induction acts as [|y acts IH]; intros o; simpl.
  - by rewrite orb_false_r.
  - by rewrite IH, orb_assoc.
Qed.

Lemma occursOn_snoc a k acts x :
  occursOn cards a k (acts ++ [x]) =
  occursOn cards a k acts
  || (bool_decide (x = a) && bool_decide (shownCard cards (run cards acts) = Some k)).
Proof. apply occursFrom_snoc. Qed.

(** A handler only writes the entry of the card on screen. *)
Lemma ledgerAfter_other a s k :
  shownCard cards (Next s) ≠ Some k → ledgerAfter cards a s !! k = results s !! k.
Proof.
  unfold shownCard, ledgerAfter, handle.
  destruct (view cards s) eqn:Hv; intros Hk.
  - destruct a; try done. unfold handleRetry, handleFinish. by case_decide.
  - by destruct a.
  - apply view_CardView in Hv as [[c Hc] _]. rewrite Hc in Hk. simpl in Hk.
    assert (FlashcardData.id c ≠ k) as Hne by congruence.
    destruct a; try done.
    + destruct (blank (input s)) eqn:Hb.
      * by rewrite handleSubmit_blank.
      * rewrite (handleSubmit_eq _ _ c Hc Hb). simpl. by rewrite lookup_insert_ne.
    + rewrite (handleSkip_eq _ _ c Hc), results_goToNextCard. simpl.
      by rewrite lookup_insert_ne.
    + by rewrite results_goToNextCard.
    + unfold handlePrevious. by case_decide.
    + rewrite (toggleBookmark_eq _ _ c Hc). simpl. by rewrite lookup_insert_ne.
Qed.

(** Only Submit, Skip and the bookmark toggle write to the ledger. *)
Lemma ledgerAfter_readonly a s :
  a ≠ Submit → a ≠ Skip → a ≠ ToggleBookmark → ledgerAfter cards a s = results s.
Proof.
  intros H1 H2 H3. unfold ledgerAfter, handle.
  destruct (view cards s); destruct a; try done.
  - unfold handleRetry, handleFinish. by case_decide.
  - by rewrite results_goToNextCard.
  - unfold handlePrevious. by case_decide.
Qed.

Lemma ledgerAfter_ToggleBookmark s k :
  shownCard cards (Next s) = Some k →
  ∃ r, ledgerAfter cards ToggleBookmark s !! k = Some r ∧ UserResult.isSkipped r = false.
Proof.
  unfold shownCard, ledgerAfter, handle.
  destruct (view cards s) eqn:Hv; try done.
  apply view_CardView in Hv as [[c Hc] _]. rewrite Hc. simpl. intros [= <-].
  rewrite (toggleBookmark_eq _ _ c Hc). simpl. rewrite lookup_insert_eq. eauto.
Qed.

Lemma bookmarkOnly_step k acts a s :
  run cards acts = Next s →
  occursOn cards Submit k (acts ++ [a]) = false →
  occursOn cards Skip k (acts ++ [a]) = false →
  bookmarkOnly cards k acts (results s !! k) →
  bookmarkOnly cards k (acts ++ [a]) (ledgerAfter cards a s !! k).
Proof.
  intros Hrun Hsub Hskip Hinv.
  rewrite occursOn_snoc, Hrun in Hsub, Hskip.
  apply orb_false_elim in Hsub as [_ Hsub], Hskip as [_ Hskip].
  assert (∀ e, bookmarkOnly cards k (acts ++ [a]) e ↔
               match e with
               | None => occursOn cards ToggleBookmark k acts
                         || (bool_decide (a = ToggleBookmark)
                             && bool_decide (shownCard cards (Next s) = Some k)) = false
               | Some r => UserResult.isSkipped r = false ∧
                           occursOn cards ToggleBookmark k acts
                           || (bool_decide (a = ToggleBookmark)
                               && bool_decide (shownCard cards (Next s) = Some k)) = true
               end) as Hunfold.
  { intros e. unfold bookmarkOnly. by rewrite occursOn_snoc, Hrun. }
  apply Hunfold. clear Hunfold.
  destruct (decide (shownCard cards (Next s) = Some k)) as [Hk|Hk].
  - rewrite (bool_decide_eq_true_2 _ Hk), andb_true_r in Hsub, Hskip |- *.
    apply bool_decide_eq_false in Hsub, Hskip.
    destruct (decide (a = ToggleBookmark)) as [->|Ha].
    + destruct (ledgerAfter_ToggleBookmark s k Hk) as (r & -> & Hr).
      rewrite bool_decide_refl, orb_true_r. done.
    + rewrite (ledgerAfter_readonly a s) by done.
      rewrite (bool_decide_eq_false_2 _ Ha), orb_false_r. apply Hinv.
  - rewrite (ledgerAfter_other a s k Hk).
    rewrite (bool_decide_eq_false_2 _ Hk), andb_false_r, orb_false_r. apply Hinv.
Qed.

Lemma bookmarkOnly_run k acts :
  occursOn cards Submit k acts = false → occursOn cards Skip k acts = false →
  match run cards acts with
  | Next s => bookmarkOnly cards k acts (results s !! k)
  | Complete fin =>
      ∃ ledger, fin = finalResults cards ledger ∧ bookmarkOnly cards k acts (ledger !! k)
  | TypeError => True
  end.
Proof.
  induction acts as [|a acts IH] using rev_ind; intros Hsub Hskip.
  - change (run cards []) with (mount cards). rewrite mount_eq. simpl.
    by rewrite lookup_empty.
  - pose proof Hsub as Hsub'. pose proof Hskip as Hskip'.
    rewrite occursOn_snoc in Hsub', Hskip'.
    apply orb_false_elim in Hsub' as [Hsub' _], Hskip' as [Hskip' _].
    specialize (IH Hsub' Hskip'). rewrite run_snoc.
    destruct (run cards acts) as [s|fin|] eqn:Hrun; [| |done].
    + pose proof (bookmarkOnly_step k acts a s Hrun Hsub Hskip IH) as Hstep.
      destruct (dispatch cards a (Next s)) as [s'|fin|] eqn:Hd; [| |done].
      * by rewrite (dispatch_results _ _ _ _ Hd).
      * exists (ledgerAfter cards a s). split; [|done]. by apply dispatch_Complete.
    + simpl. destruct IH as (ledger & Hfin & Hinv). exists ledger. split; [done|].
      unfold bookmarkOnly in *. rewrite occursOn_snoc, Hrun. simpl.
      by rewrite andb_false_r, orb_false_r.
Qed.

End Unanswered.

(** A single card whose bookmark is toggled and which is then left with
    Next Card: no Submit and no Skip ever happens, yet its finalized result
    is not marked skipped. *)
Lemma bookmarked_unanswered_card_not_skipped :
  let card := FlashcardData.mk (js "1") [20320; 22909]%N (js "Hello") in
  occursOn [card] Submit (js "1") [ToggleBookmark; Advance] = false ∧
  occursOn [card] Skip (js "1") [ToggleBookmark; Advance] = false ∧
  run [card] [ToggleBookmark; Advance] =
    Complete [UserResult.mk (js "1") [20320; 22909]%N (js "Hello") [] false true].
Proof. vm_compute. done. Qed.

(** C5 (as the code has it). When the session finishes, a card on which no
    Submit and no Skip was ever fired is finalized as the synthesized
    skipped result if its bookmark was never toggled either, and with
    [isSkipped = false] if its bookmark was toggled. *)
Theorem unanswered_card_finalization cards acts fin k :
  run cards acts = Complete fin →
  occursOn cards Submit k acts = false →
  occursOn cards Skip k acts = false →
  ∀ i c, cards !! i = Some c → FlashcardData.id c = k →
    (occursOn cards ToggleBookmark k acts = false →
       fin !! i = Some (UserResult.mk (FlashcardData.id c) (FlashcardData.chinese c)
                                      (FlashcardData.english c) [] true false)) ∧
    (occursOn cards ToggleBookmark k acts = true →
       ∃ r, fin !! i = Some r ∧ UserResult.isSkipped r = false).
Proof.
  intros Hrun Hsub Hskip i c Hc <-.
  pose proof (bookmarkOnly_run cards _ acts Hsub Hskip) as Hinv.
  rewrite Hrun in Hinv. destruct Hinv as (ledger & -> & Hinv).
  rewrite (finalResults_lookup _ _ _ _ Hc).
  unfold bookmarkOnly in Hinv.
  destruct (ledger !! FlashcardData.id c) as [r|]; simpl.
  - destruct Hinv as [Hr Ht]. split; [congruence|eauto].
  - split; [done|congruence].
Qed.

Lemma unanswered_card_finalization_witness :
  let acts := [Type_ (js "Hi"); Submit; Advance; ToggleBookmark; Advance] in
  let fin := [UserResult.mk (js "1") [20320; 22909]%N (js "Hello") (js "Hi") false false;
              UserResult.mk (js "2") [35874; 35874]%N (js "Thanks") [] false true] in
  let c := FlashcardData.mk (js "2") [35874; 35874]%N (js "Thanks") in
  (occursOn twoCards ToggleBookmark (js "2") acts = false →
     fin !! 1 = Some (UserResult.mk (FlashcardData.id c) (FlashcardData.chinese c)
                                    (FlashcardData.english c) [] true false)) ∧
  (occursOn twoCards ToggleBookmark (js "2") acts = true →
     ∃ r, fin !! 1 = Some r ∧ UserResult.isSkipped r = false).
Proof.
  apply (unanswered_card_finalization twoCards
           [Type_ (js "Hi"); Submit; Advance; ToggleBookmark; Advance]);
    vm_compute; reflexivity.
Defined.

(** ** The end-to-end scenario *)

(** Two cards: answer the first, skip the second, accept the retry round,
    answer the second; the queue is then exhausted with nothing skipped and
    the session finishes without showing the prompt again. *)
Example end_to_end_scenario :
  (∃ s, run twoCards [Type_ (js "Hi"); Submit; Advance; Skip] = Next s ∧
        view twoCards s = RetryPromptView ∧ skippedCount twoCards s = 1) ∧
  (∃ s, run twoCards [Type_ (js "Hi"); Submit; Advance; Skip; RetryAccept] = Next s ∧
        view twoCards s = CardView ∧ queue s = [1] ∧ queueIndex s = 0) ∧
  run twoCards [Type_ (js "Hi"); Submit; Advance; Skip; RetryAccept;
                Type_ (js "Thank you"); Submit; Advance] =
    Complete [UserResult.mk (js "1") [20320; 22909]%N (js "Hello") (js "Hi") false false;
              UserResult.mk (js "2") [35874; 35874]%N (js "Thanks") (js "Thank you")
                            false false].
Proof.
  split; [|split].
  - eexists. split; [vm_compute; reflexivity|]. split; reflexivity.
  - eexists. split; [vm_compute; reflexivity|]. repeat split; reflexivity.
  - vm_compute. reflexivity.
Qed.

(** * Further properties of the session *)

(** ** The queue and the cursor *)

Section Queue.

Variable cards : list FlashcardData.t.

Lemma sorted_lookup_lt (l : list nat) i j a b :
  StronglySorted lt l → l !! i = Some a → l !! j = Some b → i < j → a < b.
Proof.
  intros Hs. revert i j. induction Hs as [|x l Hs IH Hall]; intros i j Hi Hj Hlt.
  - by rewrite lookup_nil in Hi.
  - destruct j as [|j]; [lia|]. simpl in Hj. destruct i as [|i].
    + simpl in Hi. injection Hi as <-.
      rewrite Forall_forall in Hall. apply Hall. by eapply list_elem_of_lookup_2.
    + simpl in Hi. apply (IH i j); [done..|lia].
Qed.

Lemma seq_sorted j n : StronglySorted lt (seq j n).
Proof.
  revert j. induction n as [|n IH]; intros j; simpl; constructor; [apply IH|].
  apply Forall_forall. intros x Hx%elem_of_seq. lia.
Qed.

Lemma skippedIndices_bound r : Forall (λ i, i < length cards) (skippedIndices cards r).
Proof.
  apply Forall_forall. intros i [_ Hi%elem_of_seq]%list_elem_of_filter. lia.
Qed.

Lemma QueueOk_goToNextCard s : QueueOk cards s → QueueOk cards (goToNextCard s).
Proof.
  intros (Hs & Hb & Hi). unfold goToNextCard, QueueOk.
  case_decide; simpl; (split; [done|split; [done|lia]]).
Qed.

Lemma handle_QueueOk a s s1 :
  QueueOk cards s → handle cards a s = Next s1 → QueueOk cards s1.
Proof.
  intros Hq. pose proof Hq as (Hs & Hb & Hi). unfold handle.
  destruct (view cards s) eqn:Hv; destruct a; try (by intros [= <-]).
  - unfold handleRetry, handleFinish. case_decide as Hlen; [|done]. intros [= <-].
    split; [apply skippedIndices_sorted|]. split; [apply skippedIndices_bound|done].
  - apply view_CardView in Hv as [[c Hc] _].
    destruct (blank (input s)) eqn:Hbl.
    + rewrite handleSubmit_blank by done. by intros [= <-].
    + rewrite (handleSubmit_eq _ _ c) by done. by intros [= <-].
  - apply view_CardView in Hv as [[c Hc] _]. rewrite (handleSkip_eq _ _ c) by done.
    intros [= <-]. by apply QueueOk_goToNextCard.
  - intros [= <-]. by apply QueueOk_goToNextCard.
  - unfold handlePrevious. case_decide; intros [= <-]; [|done].
    split; [done|]. split; [done|]. simpl. lia.
  - apply view_CardView in Hv as [[c Hc] _]. rewrite (toggleBookmark_eq _ _ c) by done.
    by intros [= <-].
Qed.

Lemma dispatch_QueueOk a s s' :
  QueueOk cards s → dispatch cards a (Next s) = Next s' → QueueOk cards s'.
Proof.
  intros Hq (s1 & Hh & He)%dispatch_Next.
  apply runEffects_Next in He as (_ & _ & Hqu & Hi & _).
  unfold QueueOk. rewrite Hqu, Hi. by eapply handle_QueueOk.
Qed.

Lemma initialState_QueueOk : cards ≠ [] → QueueOk cards (initialState cards).
Proof.
  intros Hne. split; [|split]; simpl.
  - apply seq_sorted.
  - apply Forall_forall. intros i Hi%elem_of_seq. lia.
  - rewrite length_seq. destruct cards; [done|simpl; lia].
Qed.

Lemma run_QueueOk acts s : cards ≠ [] → run cards acts = Next s → QueueOk cards s.
Proof.
  intros Hne. revert s. induction acts as [|a acts IH] using rev_ind; intros s.
  - change (run cards []) with (mount cards). rewrite mount_eq. intros [= <-].
    by apply initialState_QueueOk.
  - rewrite run_snoc. destruct (run cards acts) as [s0| |] eqn:Hr; [|done|done].
    apply dispatch_QueueOk. by apply IH.
Qed.

Lemma QueueOk_currentCard s :
  QueueOk cards s →
  ∃ p c, queue s !! queueIndex s = Some p ∧ cards !! p = Some c ∧
         currentCard cards s = Some c ∧ currentCardRef cards s = Some p.
Proof.
  intros (_ & Hb & Hi).
  destruct (lookup_lt_is_Some_2 _ _ Hi) as [p Hp].
  assert (p < length cards) as Hlt.
  { rewrite Forall_forall in Hb. apply Hb. by eapply list_elem_of_lookup_2. }
  destruct (lookup_lt_is_Some_2 _ _ Hlt) as [c Hc].
  exists p, c. unfold currentCard, currentCardRef, currentCardIndex. rewrite Hp. simpl.
  by rewrite decide_True.
Qed.

End Queue.

(** X1. On a non-empty card store, in every reachable render the queue is
    a non-empty, strictly increasing list of valid card positions, the
    cursor is inside it (so "Card i of n" has [1 ≤ i ≤ n]), the current
    card is defined and the component never renders nothing. *)
Theorem queue_always_valid cards acts s :
  cards ≠ [] → run cards acts = Next s →
  StronglySorted lt (queue s) ∧
  Forall (λ i, i < length cards) (queue s) ∧
  queueIndex s + 1 ≤ length (queue s) ∧
  (∃ c, currentCard cards s = Some c) ∧
  view cards s ≠ NullView.
Proof.
  intros Hne Hrun. pose proof (run_QueueOk _ _ _ Hne Hrun) as Hq.
  pose proof Hq as (Hs & Hb & Hi).
  destruct (QueueOk_currentCard _ _ Hq) as (p & c & _ & _ & Hc & _).
  split; [done|]. split; [done|]. split; [lia|]. split; [eauto|].
  unfold view. rewrite Hc. by destruct (_ && _).
Qed.

Lemma queue_always_valid_witness :
  let s := mkState [1] 0
             {[ js "1" := recorded (FlashcardData.mk (js "1") [20320; 22909]%N (js "Hello"))
                                   (js "Hi") false false;
                js "2" := recorded (FlashcardData.mk (js "2") [35874; 35874]%N (js "Thanks"))
                                   [] true false ]}
             2 false [] false false in
  StronglySorted lt (queue s) ∧
  Forall (λ i, i < length twoCards) (queue s) ∧
  queueIndex s + 1 ≤ length (queue s) ∧
  (∃ c, currentCard twoCards s = Some c) ∧
  view twoCards s ≠ NullView.
Proof.
  apply (queue_always_valid twoCards [Type_ (js "Hi"); Submit; Advance; Skip; RetryAccept]).
  - discriminate.
  - vm_compute. reflexivity.
Defined.

(** X2. On every card store whose ids name no member of
    [Object.prototype] (the empty store included), no sequence of events
    makes a handler read a property of an undefined current card: the
    session is always either running or finished. *)
Theorem session_never_raises cards acts :
  OwnIds cards →
  (∃ s, run cards acts = Next s) ∨ (∃ fin, run cards acts = Complete fin).
Proof.
  intros _. pose proof (run_not_TypeError cards acts) as H.
  destruct (run cards acts); [left|right|done]; eauto.
Qed.

Lemma session_never_raises_witness :
  (∃ s, run twoCards [Type_ (js "Hi"); Submit; Advance; Skip; Skip] = Next s) ∨
  (∃ fin, run twoCards [Type_ (js "Hi"); Submit; Advance; Skip; Skip] = Complete fin).
Proof.
  apply (session_never_raises twoCards [Type_ (js "Hi"); Submit; Advance; Skip; Skip]).
  apply (bool_decide_unpack _). vm_compute. exact I.
Defined.

(** ** Moving between cards *)

Section Navigation.

Variable cards : list FlashcardData.t.

Lemma currentCard_nonempty s c : currentCard cards s = Some c → cards ≠ [].
Proof.
  intros Hc ->. unfold currentCard in Hc.
  destruct (currentCardIndex s); simpl in Hc; by rewrite ?lookup_nil in Hc.
Qed.

Lemma CardView_QueueOk acts s :
  run cards acts = Next s → view cards s = CardView → QueueOk cards s.
Proof.
  intros Hrun [[c Hc] _]%view_CardView.
  eapply run_QueueOk; [|done]. by eapply currentCard_nonempty.
Qed.

(** Moving the cursor to another queue position changes the current card,
    so the rehydration effect reloads the buffer. *)
Lemma dispatch_move s j :
  Settled cards s → QueueOk cards s → view cards s = CardView →
  j ≠ queueIndex s → j < length (queue s) →
  runEffects cards s (setQueueIndex j (setIsFlipped false s)) =
    Next (rehydrate cards (setQueueIndex j (setIsFlipped false s))).
Proof.
  intros Hs Hq Hv Hj Hlt. pose proof (Settled_CardView _ _ Hs Hv) as Hp.
  rewrite runEffects_continue by (simpl; congruence).
  assert (QueueOk cards (setQueueIndex j (setIsFlipped false s))) as Hq1.
  { destruct Hq as (? & ? & ?). by split; [|split]. }
  destruct (QueueOk_currentCard _ _ Hq) as (p & c & Hp1 & _ & _ & Hr).
  destruct (QueueOk_currentCard _ _ Hq1) as (p' & c' & Hp2 & _ & _ & Hr').
  simpl in Hp2. unfold rehydrateDepsChanged. rewrite Hr, Hr'.
  rewrite (bool_decide_eq_false_2 (Some p = Some p')); [done|].
  intros [= <-]. destruct Hq as (Hsorted & _ & _).
  destruct (decide (j < queueIndex s)).
  - pose proof (sorted_lookup_lt _ _ _ _ _ Hsorted Hp2 Hp1). lia.
  - pose proof (sorted_lookup_lt _ _ _ _ _ Hsorted Hp1 Hp2). lia.
Qed.

Lemma rehydrate_view s :
  showRetryPrompt s = false → QueueOk cards s → view cards (rehydrate cards s) = CardView.
Proof.
  intros Hp Hq. destruct (QueueOk_currentCard _ _ Hq) as (p & c & _ & _ & Hc & _).
  apply (view_prompt_down _ _ c); [by rewrite showRetryPrompt_rehydrate|].
  unfold currentCard, currentCardIndex in *.
  by destruct (queue_rehydrate cards s) as [-> ->].
Qed.

Lemma currentCard_rehydrate s : currentCard cards (rehydrate cards s) = currentCard cards s.
Proof.
  unfold currentCard, currentCardIndex. by destruct (queue_rehydrate cards s) as [-> ->].
Qed.

End Navigation.

(** X3. In every reachable card screen with the cursor after position 0,
    Previous moves the cursor back by one, turns the card face down, leaves
    the queue and the ledger as they are (text typed on the card being left
    and not saved is not recorded), shows a card, and loads the buffer with
    that card's saved answer and bookmark flag, or the empty string and
    [false] if it has no entry. *)
Theorem previous_restores_saved_answer cards acts s :
  run cards acts = Next s → view cards s = CardView → 0 < queueIndex s →
  ∃ s' c,
    dispatch cards Previous (Next s) = Next s' ∧
    queue s' = queue s ∧ queueIndex s' = queueIndex s - 1 ∧
    results s' = results s ∧ isFlipped s' = false ∧
    view cards s' = CardView ∧ currentCard cards s' = Some c ∧
    input s' = default [] (UserResult.userInput <$> results s !! FlashcardData.id c) ∧
    isBookmarked s' =
      default false (UserResult.isBookmarked <$> results s !! FlashcardData.id c).
Proof.
  intros Hrun Hv Hpos.
  pose proof (run_Settled _ _ _ Hrun) as Hs.
  pose proof (CardView_QueueOk _ _ _ Hrun Hv) as Hq.
  pose proof (Settled_CardView _ _ Hs Hv) as Hp.
  set (s1 := setQueueIndex (queueIndex s - 1) (setIsFlipped false s)).
  assert (dispatch cards Previous (Next s) = Next (rehydrate cards s1)) as Hd.
  { simpl. unfold handle. rewrite Hv. unfold handlePrevious.
    rewrite decide_True by done. destruct Hq as (? & ? & ?).
    apply dispatch_move; [done| by split |done|lia|lia]. }
  assert (QueueOk cards s1) as Hq1.
  { destruct Hq as (? & ? & ?). split; [done|]. split; [done|]. simpl. lia. }
  destruct (QueueOk_currentCard _ _ Hq1) as (p & c & _ & _ & Hc & _).
  exists (rehydrate cards s1), c. split; [done|].
  destruct (queue_rehydrate cards s1) as [-> ->].
  rewrite results_rehydrate, isFlipped_rehydrate, currentCard_rehydrate.
  split; [done|]. split; [done|]. split; [done|]. split; [done|].
  split; [by apply rehydrate_view|]. split; [done|].
  destruct (rehydrate_loaded cards s1) as [Hb Hi].
  specialize (Hb c). specialize (Hi c).
  rewrite currentCard_rehydrate, results_rehydrate in Hb, Hi. auto.
Qed.

Lemma previous_restores_saved_answer_witness :
  let s := mkState [0; 1] 1
             {[ js "1" := recorded (FlashcardData.mk (js "1") [20320; 22909]%N (js "Hello"))
                                   (js "Hi") false true ]}
             2 false (js "draft") false false in
  ∃ s' c,
    dispatch twoCards Previous (Next s) = Next s' ∧
    queue s' = queue s ∧ queueIndex s' = queueIndex s - 1 ∧
    results s' = results s ∧ isFlipped s' = false ∧
    view twoCards s' = CardView ∧ currentCard twoCards s' = Some c ∧
    input s' = default [] (UserResult.userInput <$> results s !! FlashcardData.id c) ∧
    isBookmarked s' =
      default false (UserResult.isBookmarked <$> results s !! FlashcardData.id c).
Proof.
  apply (previous_restores_saved_answer twoCards
           [ToggleBookmark; Type_ (js "Hi"); Submit; Advance; Type_ (js "draft")]).
  - vm_compute. reflexivity.
  - reflexivity.
  - simpl. lia.
Defined.

(** X4. In every reachable card screen whose cursor is not on the last
    queue position, Next Card moves the cursor forward by one, turns the
    card face down, leaves the queue and the ledger as they are (unsaved
    text is not recorded), keeps the prompt flag down, and loads the buffer
    with the next card's saved answer and bookmark flag, or the empty
    string and [false]. *)
Theorem advance_moves_to_next_card cards acts s :
  run cards acts = Next s → view cards s = CardView →
  queueIndex s + 1 < length (queue s) →
  ∃ s' c,
    dispatch cards Advance (Next s) = Next s' ∧
    queue s' = queue s ∧ queueIndex s' = queueIndex s + 1 ∧
    results s' = results s ∧ isFlipped s' = false ∧ showRetryPrompt s' = false ∧
    view cards s' = CardView ∧ currentCard cards s' = Some c ∧
    input s' = default [] (UserResult.userInput <$> results s !! FlashcardData.id c) ∧
    isBookmarked s' =
      default false (UserResult.isBookmarked <$> results s !! FlashcardData.id c).
Proof.
  intros Hrun Hv Hlt.
  pose proof (run_Settled _ _ _ Hrun) as Hs.
  pose proof (CardView_QueueOk _ _ _ Hrun Hv) as Hq.
  pose proof (Settled_CardView _ _ Hs Hv) as Hp.
  set (s1 := setQueueIndex (queueIndex s + 1) (setIsFlipped false s)).
  assert (dispatch cards Advance (Next s) = Next (rehydrate cards s1)) as Hd.
  { simpl. unfold handle. rewrite Hv. unfold goToNextCard.
    rewrite decide_True by lia. apply dispatch_move; [done|done|done|lia|lia]. }
  assert (QueueOk cards s1) as Hq1.
  { destruct Hq as (? & ? & ?). split; [done|]. split; [done|]. simpl. lia. }
  destruct (QueueOk_currentCard _ _ Hq1) as (p & c & _ & _ & Hc & _).
  exists (rehydrate cards s1), c. split; [done|].
  destruct (queue_rehydrate cards s1) as [-> ->].
  rewrite results_rehydrate, isFlipped_rehydrate, showRetryPrompt_rehydrate,
    currentCard_rehydrate.
  split; [done|]. split; [done|]. split; [done|]. split; [done|]. split; [done|].
  split; [by apply rehydrate_view|]. split; [done|].
  destruct (rehydrate_loaded cards s1) as [Hb Hi].
  specialize (Hb c). specialize (Hi c).
  rewrite currentCard_rehydrate, results_rehydrate in Hb, Hi. auto.
Qed.

Lemma advance_moves_to_next_card_witness :
  let s := mkState [0; 1] 0 ∅ 0 false (js "draft") false false in
  ∃ s' c,
    dispatch twoCards Advance (Next s) = Next s' ∧
    queue s' = queue s ∧ queueIndex s' = queueIndex s + 1 ∧
    results s' = results s ∧ isFlipped s' = false ∧ showRetryPrompt s' = false ∧
    view twoCards s' = CardView ∧ currentCard twoCards s' = Some c ∧
    input s' = default [] (UserResult.userInput <$> results s !! FlashcardData.id c) ∧
    isBookmarked s' =
      default false (UserResult.isBookmarked <$> results s !! FlashcardData.id c).
Proof.
  apply (advance_moves_to_next_card twoCards [Type_ (js "draft")]).
  - reflexivity.
  - reflexivity.
  - simpl. lia.
Defined.

(** ** Every session can be finished *)

Section Finishing.

Variable cards : list FlashcardData.t.

Lemma dispatch_Skip_cases s :
  Settled cards s → view cards s = CardView →
  ∃ s', dispatch cards Skip (Next s) = Next s' ∧ queue s' = queue s ∧
        ((queueIndex s + 1 < length (queue s) ∧ queueIndex s' = queueIndex s + 1) ∨
         (length (queue s) ≤ queueIndex s + 1 ∧ view cards s' = RetryPromptView)).
Proof.
  intros Hs Hv. pose proof (Settled_CardView _ _ Hs Hv) as Hp.
  pose proof Hv as [[c Hc] _]%view_CardView.
  set (s1 := setResults (<[FlashcardData.id c :=
                             recorded c (input s) true (isBookmarked s)]> (results s)) s).
  assert (0 < skippedCount cards (goToNextCard s1)) as Hpos.
  { destruct (currentCard_position _ _ _ Hc) as [i Hi].
    apply (skippedCount_pos cards _ i c Hi). rewrite results_goToNextCard.
    unfold ledgerSkipped. simpl. by rewrite lookup_insert_eq. }
  exists (rehydrate cards (goToNextCard s1)). split.
  - simpl. unfold handle. rewrite Hv, (handleSkip_eq _ _ c Hc).
    rewrite runEffects_continue by done.
    by rewrite rehydrateDepsChanged_write by (unfold goToNextCard; by case_decide).
  - destruct (queue_rehydrate cards (goToNextCard s1)) as [-> ->].
    split; [unfold goToNextCard; by case_decide|].
    destruct (decide (queueIndex s + 1 < length (queue s))) as [Hlt|Hge].
    + left. split; [done|]. unfold goToNextCard. by rewrite decide_True by (simpl; lia).
    + right. split; [lia|]. apply view_RetryPromptView.
      rewrite showRetryPrompt_rehydrate. split.
      * unfold goToNextCard. by rewrite decide_False by (simpl; lia).
      * rewrite (skippedCount_ext cards _ (goToNextCard s1)); [done|].
        apply results_rehydrate.
Qed.

Lemma foldl_dispatch_cons a l o :
  foldl (λ o a, dispatch cards a o) o (a :: l) =
  foldl (λ o a, dispatch cards a o) (dispatch cards a o) l.
Proof. done. Qed.

Lemma finish_by_skipping n s :
  Settled cards s → QueueOk cards s →
  view cards s = RetryPromptView ∨ length (queue s) - queueIndex s ≤ n →
  ∃ fin, foldl (λ o a, dispatch cards a o) (Next s) (replicate n Skip ++ [RetryDecline])
         = Complete fin.
Proof.
  revert s. induction n as [|n IH]; intros s Hs Hq Hcase.
  - destruct Hcase as [Hv|Hle]; [|destruct Hq as (_ & _ & ?); lia].
    simpl. unfold handle. rewrite Hv. eauto.
  - change (replicate (S n) Skip ++ [RetryDecline])
      with (Skip :: (replicate n Skip ++ [RetryDecline])).
    rewrite foldl_dispatch_cons.
    destruct (view cards s) eqn:Hv.
    + assert (dispatch cards Skip (Next s) = Next s) as ->.
      { apply dispatch_noop. unfold handle. by rewrite Hv. }
      apply IH; auto.
    + exfalso. destruct (QueueOk_currentCard _ _ Hq) as (p & c & _ & _ & Hc & _).
      revert Hv. unfold view. rewrite Hc. by destruct (_ && _).
    + destruct Hcase as [?|Hle]; [done|].
      destruct (dispatch_Skip_cases s Hs Hv) as (s' & Hd & Hqu & Hcases).
      rewrite Hd. apply IH.
      * by eapply dispatch_Settled.
      * by eapply dispatch_QueueOk.
      * destruct Hcases as [[Hlt Hi]|[_ Hv']]; [right; rewrite Hqu, Hi; lia|by left].
Qed.

End Finishing.

(** X5. On a non-empty card store every running session can be brought to
    its end: from any reachable render, pressing Skip as many times as
    there are queue positions left and then declining the retry prompt
    calls [onComplete]. *)
Theorem session_can_always_finish cards acts s :
  cards ≠ [] → run cards acts = Next s →
  ∃ fin, run cards (acts ++ replicate (length (queue s) - queueIndex s) Skip
                         ++ [RetryDecline]) = Complete fin.
Proof.
  intros Hne Hrun. unfold run. rewrite foldl_app. fold (run cards acts). rewrite Hrun.
  apply finish_by_skipping.
  - by eapply run_Settled.
  - by eapply run_QueueOk.
  - by right.
Qed.

Lemma session_can_always_finish_witness :
  ∃ fin, run twoCards ([Type_ (js "Hi"); Submit]
                       ++ replicate (length [0; 1] - 0) Skip ++ [RetryDecline])
         = Complete fin.
Proof.
  apply (session_can_always_finish twoCards [Type_ (js "Hi"); Submit]
           (mkState [0; 1] 0
              {[ js "1" := recorded (FlashcardData.mk (js "1") [20320; 22909]%N (js "Hello"))
                                    (js "Hi") false false ]}
              1 true (js "Hi") false false)).
  - discriminate.
  - vm_compute. reflexivity.
Defined.

(** ** Retry rounds never grow *)

Section RetryRounds.

Variable cards : list FlashcardData.t.

Lemma skippedAt_Some r i :
  skippedAt cards r i = true →
  ∃ c, cards !! i = Some c ∧ ledgerSkipped r (FlashcardData.id c) = true.
Proof. unfold skippedAt. destruct (cards !! i) as [c|]; [eauto|done]. Qed.

Lemma elem_of_skippedIndices_skippedAt r i :
  i ∈ skippedIndices cards r ↔ skippedAt cards r i = true.
Proof.
  unfold skippedIndices. rewrite list_elem_of_filter, elem_of_seq, Is_true_true.
  split; [by intros [? _]|]. intros H. split; [done|].
  apply skippedAt_Some in H as (c & Hc%lookup_lt_Some & _). lia.
Qed.

Lemma skippedAt_insert r c text skipped bookmarked i :
  skippedAt cards (<[FlashcardData.id c := recorded c text skipped bookmarked]> r) i = true →
  (∃ ci, cards !! i = Some ci ∧ FlashcardData.id ci = FlashcardData.id c) ∨
  skippedAt cards r i = true.
Proof.
  unfold skippedAt, ledgerSkipped. destruct (cards !! i) as [ci|]; [|done].
  rewrite lookup_insert. case_decide as Hid; [left; eauto|by right].
Qed.

Lemma currentCard_in_queue s c :
  currentCard cards s = Some c → ∃ p, p ∈ queue s ∧ cards !! p = Some c.
Proof.
  unfold currentCard, currentCardIndex.
  destruct (queue s !! queueIndex s) as [p|] eqn:Hp; [|done]. simpl. intros Hc.
  exists p. split; [by eapply list_elem_of_lookup_2|done].
Qed.

Lemma QueueCovers_write s c text skipped bookmarked s1 :
  QueueCovers cards s → currentCard cards s = Some c →
  queue s1 = queue s →
  results s1 = <[FlashcardData.id c := recorded c text skipped bookmarked]> (results s) →
  QueueCovers cards s1.
Proof.
  intros [Hclosed Hcov] Hc Hq Hr. unfold QueueCovers. rewrite Hq, Hr.
  split; [done|]. intros i [(ci & Hci & Hid)|Hi]%skippedAt_insert; [|by apply Hcov].
  destruct (currentCard_in_queue _ _ Hc) as (p & Hp & Hcp).
  by apply (Hclosed p i c ci).
Qed.

Lemma handle_QueueCovers a s s1 :
  QueueCovers cards s → handle cards a s = Next s1 → QueueCovers cards s1.
Proof.
  intros Hq. unfold handle.
  destruct (view cards s) eqn:Hv; destruct a; try (by intros [= <-]).
  - unfold handleRetry, handleFinish. case_decide as Hlen; [|done]. intros [= <-].
    split; simpl.
    + intros i j ci cj Hi Hci Hcj Hid.
      apply elem_of_skippedIndices_skippedAt in Hi.
      apply elem_of_skippedIndices_skippedAt.
      revert Hi. unfold skippedAt. by rewrite Hci, Hcj, Hid.
    + intros i Hi. by apply elem_of_skippedIndices_skippedAt.
  - apply view_CardView in Hv as [[c Hc] _].
    destruct (blank (input s)) eqn:Hbl.
    + rewrite handleSubmit_blank by done. by intros [= <-].
    + rewrite (handleSubmit_eq _ _ c) by done. intros [= <-].
      by eapply (QueueCovers_write s c).
  - apply view_CardView in Hv as [[c Hc] _]. rewrite (handleSkip_eq _ _ c) by done.
    intros [= <-]. eapply (QueueCovers_write s c); [done..| |].
    + unfold goToNextCard. by case_decide.
    + by rewrite results_goToNextCard.
  - intros [= <-]. destruct Hq as [H1 H2]. unfold QueueCovers.
    rewrite results_goToNextCard.
    replace (queue (goToNextCard s)) with (queue s); [done|].
    unfold goToNextCard. by case_decide.
  - unfold handlePrevious. case_decide; by intros [= <-].
  - apply view_CardView in Hv as [[c Hc] _]. rewrite (toggleBookmark_eq _ _ c) by done.
    intros [= <-]. by eapply (QueueCovers_write s c).
Qed.

Lemma run_QueueCovers acts s : run cards acts = Next s → QueueCovers cards s.
Proof.
  revert s. induction acts as [|a acts IH] using rev_ind; intros s.
  - change (run cards []) with (mount cards). rewrite mount_eq. intros [= <-].
    split; simpl.
    + intros i j ci cj _ _ Hcj%lookup_lt_Some _. apply elem_of_seq. lia.
    + intros i (c & _ & Hc)%skippedAt_Some. revert Hc. unfold ledgerSkipped.
      by rewrite lookup_empty.
  - rewrite run_snoc. destruct (run cards acts) as [s0| |] eqn:Hr; [|done|done].
    intros (s1 & Hh & He)%dispatch_Next.
    apply runEffects_Next in He as (Hres & _ & Hqu & _ & _).
    pose proof (handle_QueueCovers _ _ _ (IH _ eq_refl) Hh) as Hq1.
    unfold QueueCovers. by rewrite Hres, Hqu.
Qed.

Lemma dispatch_RetryAccept s :
  view cards s = RetryPromptView →
  ∃ s', dispatch cards RetryAccept (Next s) = Next s' ∧
        queue s' = skippedIndices cards (results s).
Proof.
  intros Hv. pose proof Hv as [Hsp Hcount]%view_RetryPromptView.
  rewrite <- skippedIndices_length in Hcount.
  simpl. unfold handle. rewrite Hv. unfold handleRetry. rewrite decide_True by done.
  set (s1 := setShowRetryPrompt false _).
  rewrite runEffects_continue by done.
  eexists. split; [done|].
  destruct (rehydrateDepsChanged cards s s1); [|done].
  by destruct (queue_rehydrate cards s1) as [-> _].
Qed.

End RetryRounds.

(** X6. From every reachable retry prompt, accepting gives a queue with
    exactly as many cards as the prompt announced ([skippedCount]), all of
    them taken from the queue of the round just finished: a retry round
    never shows a card the previous round did not contain and is never
    longer than it. *)
Theorem retry_round_never_grows cards acts s :
  run cards acts = Next s → view cards s = RetryPromptView →
  ∃ s', dispatch cards RetryAccept (Next s) = Next s' ∧
        length (queue s') = skippedCount cards s ∧
        queue s' ⊆ queue s ∧
        length (queue s') ≤ length (queue s).
Proof.
  intros Hrun Hv. destruct (dispatch_RetryAccept cards s Hv) as (s' & Hd & Hq).
  exists s'. split; [done|]. rewrite Hq.
  split; [apply skippedIndices_length|].
  pose proof (run_QueueCovers _ _ _ Hrun) as [_ Hcov].
  assert (skippedIndices cards (results s) ⊆ queue s) as Hsub.
  { intros i Hi%elem_of_skippedIndices_skippedAt. by apply Hcov. }
  split; [done|].
  apply submseteq_length, NoDup_submseteq; [|done].
  unfold skippedIndices. apply NoDup_filter, NoDup_seq.
Qed.

Lemma retry_round_never_grows_witness :
  let s := mkState [0; 1] 1
             {[ js "1" := recorded (FlashcardData.mk (js "1") [20320; 22909]%N (js "Hello"))
                                   (js "Hi") false false;
                js "2" := recorded (FlashcardData.mk (js "2") [35874; 35874]%N (js "Thanks"))
                                   [] true false ]}
             2 false [] false true in
  ∃ s', dispatch twoCards RetryAccept (Next s) = Next s' ∧
        length (queue s') = skippedCount twoCards s ∧
        queue s' ⊆ queue s ∧
        length (queue s') ≤ length (queue s).
Proof.
  apply (retry_round_never_grows twoCards [Type_ (js "Hi"); Submit; Advance; Skip]).
  - vm_compute. reflexivity.
  - reflexivity.
Defined.

(** ** What the ledger holds *)

Section Ledger.

Variable cards : list FlashcardData.t.

Lemma LedgerFromCards_insert r c text skipped bookmarked :
  c ∈ cards → LedgerFromCards cards r →
  LedgerFromCards cards (<[FlashcardData.id c := recorded c text skipped bookmarked]> r).
Proof.
  intros Hin Hr k x. rewrite lookup_insert. case_decide as Hk; [|apply Hr].
  intros [= <-]. exists c, text, skipped, bookmarked. done.
Qed.

Lemma currentCard_elem s c : currentCard cards s = Some c → c ∈ cards.
Proof. intros [i Hi]%currentCard_position. by eapply list_elem_of_lookup_2. Qed.

Lemma handle_LedgerFromCards a s s1 :
  LedgerFromCards cards (results s) → handle cards a s = Next s1 →
  LedgerFromCards cards (results s1).
Proof.
  intros Hl. unfold handle.
  destruct (view cards s) eqn:Hv; destruct a; try (by intros [= <-]).
  - unfold handleRetry, handleFinish. case_decide; [by intros [= <-]|done].
  - apply view_CardView in Hv as [[c Hc] _].
    destruct (blank (input s)) eqn:Hb.
    + rewrite handleSubmit_blank by done. by intros [= <-].
    + rewrite (handleSubmit_eq _ _ c) by done. intros [= <-]. simpl.
      apply LedgerFromCards_insert; [by eapply currentCard_elem|done].
  - apply view_CardView in Hv as [[c Hc] _]. rewrite (handleSkip_eq _ _ c) by done.
    intros [= <-]. rewrite results_goToNextCard. simpl.
    apply LedgerFromCards_insert; [by eapply currentCard_elem|done].
  - intros [= <-]. by rewrite results_goToNextCard.
  - unfold handlePrevious. case_decide; by intros [= <-].
  - apply view_CardView in Hv as [[c Hc] _]. rewrite (toggleBookmark_eq _ _ c) by done.
    intros [= <-]. simpl.
    apply LedgerFromCards_insert; [by eapply currentCard_elem|done].
Qed.

Lemma ledgerAfter_LedgerFromCards a s :
  LedgerFromCards cards (results s) → LedgerFromCards cards (ledgerAfter cards a s).
Proof.
  intros Hl. unfold ledgerAfter.
  destruct (handle cards a s) as [s1| |] eqn:Hh; [|done|done].
  by eapply handle_LedgerFromCards.
Qed.

Lemma run_LedgerFromCards acts s :
  run cards acts = Next s → LedgerFromCards cards (results s).
Proof.
  revert s. induction acts as [|a acts IH] using rev_ind; intros s.
  - change (run cards []) with (mount cards). rewrite mount_eq. intros [= <-] k x.
    simpl. by rewrite lookup_empty.
  - rewrite run_snoc. destruct (run cards acts) as [s0| |] eqn:Hr; [|done|done].
    intros Hd. rewrite (dispatch_results _ _ _ _ Hd).
    apply ledgerAfter_LedgerFromCards. by apply IH.
Qed.

(** The list handed to [onComplete] is the finalization of a ledger whose
    entries all come from cards of the store. *)
Lemma run_Complete_ledger acts fin :
  run cards acts = Complete fin →
  ∃ ledger, fin = finalResults cards ledger ∧ LedgerFromCards cards ledger.
Proof.
  intros (pre & a & post & s & _ & Hpre & Hd)%run_Complete_inv.
  exists (ledgerAfter cards a s). split; [by apply dispatch_Complete|].
  apply ledgerAfter_LedgerFromCards. by eapply run_LedgerFromCards.
Qed.

Lemma NoDup_ids_eq c c' :
  NoDup (FlashcardData.id <$> cards) → c ∈ cards → c' ∈ cards →
  FlashcardData.id c = FlashcardData.id c' → c = c'.
Proof.
  intros Hnd [i Hi]%list_elem_of_lookup [j Hj]%list_elem_of_lookup Hid.
  assert (i = j) as ->; [|congruence].
  apply (NoDup_lookup _ i j (FlashcardData.id c) Hnd).
  - by rewrite list_lookup_fmap, Hi.
  - by rewrite list_lookup_fmap, Hj, Hid.
Qed.

End Ledger.

(** X7. In every reachable render, each ledger entry is filed under the id
    of a card of the store, and finalizing that ledger reports the entry,
    unchanged, at the position of every card with that id: nothing that was
    recorded is lost or altered by [handleFinish]. *)
Theorem recorded_results_are_finalized cards acts s k x :
  run cards acts = Next s → results s !! k = Some x →
  (∃ i c, cards !! i = Some c ∧ FlashcardData.id c = k) ∧
  (∀ i c, cards !! i = Some c → FlashcardData.id c = k →
          finalResults cards (results s) !! i = Some x).
Proof.
  intros Hrun Hx. split.
  - destruct (run_LedgerFromCards _ _ _ Hrun k x Hx)
      as (c & _ & _ & _ & [i Hi]%list_elem_of_lookup & Hid & _).
    eauto.
  - intros i c Hc <-. by rewrite (finalResults_lookup _ _ _ _ Hc), Hx.
Qed.

Lemma recorded_results_are_finalized_witness :
  let c1 := FlashcardData.mk (js "1") [20320; 22909]%N (js "Hello") in
  let s := mkState [0; 1] 0 {[ js "1" := recorded c1 (js "Hi") false false ]}
                   1 true (js "Hi") false false in
  (∃ i c, twoCards !! i = Some c ∧ FlashcardData.id c = js "1") ∧
  (∀ i c, twoCards !! i = Some c → FlashcardData.id c = js "1" →
          finalResults twoCards (results s) !! i = Some (recorded c1 (js "Hi") false false)).
Proof.
  apply (recorded_results_are_finalized twoCards [Type_ (js "Hi"); Submit]).
  - vm_compute. reflexivity.
  - reflexivity.
Defined.

(** X8. When the ids of the card store are pairwise distinct, every entry
    of the list handed to [onComplete] carries the id, the Chinese text and
    the English answer of the card at its own position. *)
Theorem final_results_match_their_cards cards acts fin :
  NoDup (FlashcardData.id <$> cards) → run cards acts = Complete fin →
  ∀ i c r, cards !! i = Some c → fin !! i = Some r →
    UserResult.cardId r = FlashcardData.id c ∧
    UserResult.chinese r = FlashcardData.chinese c ∧
    UserResult.correctEnglish r = FlashcardData.english c.
Proof.
  intros Hnd (ledger & -> & Hl)%run_Complete_ledger i c r Hc.
  rewrite (finalResults_lookup _ _ _ _ Hc).
  destruct (ledger !! FlashcardData.id c) as [x|] eqn:Hx; simpl; intros [= <-]; [|done].
  destruct (Hl _ _ Hx) as (c' & text & sk & bm & Hin & Hid & ->).
  assert (c' = c) as ->; [|done].
  apply (NoDup_ids_eq cards); [done..|by eapply list_elem_of_lookup_2|done].
Qed.

Lemma final_results_match_their_cards_witness :
  let c := FlashcardData.mk (js "2") [35874; 35874]%N (js "Thanks") in
  let r := UserResult.mk (js "2") [35874; 35874]%N (js "Thanks") [] true false in
  UserResult.cardId r = FlashcardData.id c ∧
  UserResult.chinese r = FlashcardData.chinese c ∧
  UserResult.correctEnglish r = FlashcardData.english c.
Proof.
  refine (final_results_match_their_cards twoCards
            [Type_ (js "Hi"); Submit; Advance; Skip; RetryDecline]
            [UserResult.mk (js "1") [20320; 22909]%N (js "Hello") (js "Hi") false false;
             UserResult.mk (js "2") [35874; 35874]%N (js "Thanks") [] true false]
            _ _ 1 _ _ _ _).
  - apply (bool_decide_unpack _). vm_compute. exact I.
  - vm_compute. reflexivity.
  - reflexivity.
  - reflexivity.
Defined.

(** ** Toggling a bookmark twice *)

(** X9. In every reachable card screen, toggling the bookmark twice brings
    the bookmark flag of the buffer back to what it was and leaves the
    text, the queue and the cursor alone, but the ledger is not restored:
    the current card now has an entry with the buffer's text, the original
    bookmark flag and [isSkipped = false], whatever it had before. *)
Theorem toggling_twice_leaves_an_entry cards acts s c :
  run cards acts = Next s → view cards s = CardView → currentCard cards s = Some c →
  ∃ s', run cards (acts ++ [ToggleBookmark; ToggleBookmark]) = Next s' ∧
        isBookmarked s' = isBookmarked s ∧ input s' = input s ∧
        queue s' = queue s ∧ queueIndex s' = queueIndex s ∧
        results s' !! FlashcardData.id c =
          Some (recorded c (input s) false (isBookmarked s)) ∧
        (∀ k, k ≠ FlashcardData.id c → results s' !! k = results s !! k).
Proof.
  intros Hrun Hv Hc.
  pose proof (run_Settled _ _ _ Hrun) as Hs.
  pose proof (Settled_CardView _ _ Hs Hv) as Hp.
  pose proof (dispatch_ToggleBookmark cards s c Hs Hv Hc) as H1.
  set (s1 := setResults _ _) in H1.
  assert (run cards (acts ++ [ToggleBookmark]) = Next s1) as Hrun1.
  { by rewrite run_snoc, Hrun. }
  assert (view cards s1 = CardView) as Hv1 by by apply (view_prompt_down _ _ c).
  pose proof (dispatch_ToggleBookmark cards s1 c (run_Settled _ _ _ Hrun1) Hv1 Hc) as H2.
  eexists. split.
  - replace (acts ++ [ToggleBookmark; ToggleBookmark])
      with ((acts ++ [ToggleBookmark]) ++ [ToggleBookmark]) by by rewrite <- app_assoc.
    by rewrite run_snoc, Hrun1, H2.
  - simpl. rewrite negb_involutive.
    split; [done|]. split; [done|]. split; [done|]. split; [done|].
    split; [by rewrite lookup_insert_eq|].
    intros k Hk. by rewrite !lookup_insert_ne.
Qed.

Lemma toggling_twice_leaves_an_entry_witness :
  let c := FlashcardData.mk (js "1") [20320; 22909]%N (js "Hello") in
  let s := mkState [0; 1] 0 ∅ 0 false [] false false in
  ∃ s', run twoCards ([] ++ [ToggleBookmark; ToggleBookmark]) = Next s' ∧
        isBookmarked s' = isBookmarked s ∧ input s' = input s ∧
        queue s' = queue s ∧ queueIndex s' = queueIndex s ∧
        results s' !! FlashcardData.id c =
          Some (recorded c (input s) false (isBookmarked s)) ∧
        (∀ k, k ≠ FlashcardData.id c → results s' !! k = results s !! k).
Proof.
  apply (toggling_twice_leaves_an_entry twoCards []); reflexivity.
Defined.

(** * The report rows built from the session's results *)

Section Report.

Variable cards : list FlashcardData.t.

Lemma LedgerFromCards_keyed r : LedgerFromCards cards r → ledgerKeyed r.
Proof. intros Hl k x Hx. by destruct (Hl k x Hx) as (c & ? & ? & ? & _ & <- & ->). Qed.

Lemma find_finalResults ledger k :
  ledgerKeyed ledger →
  find (λ r, bool_decide (UserResult.cardId r = k)) (finalResults cards ledger) =
  (λ c, default (synthesized c) (ledger !! k))
    <$> find (λ c, bool_decide (FlashcardData.id c = k)) cards.
Proof.
  intros Hk. unfold finalResults. induction cards as [|c cs IH]; [done|].
  rewrite fmap_cons. simpl.
  set (x := match ledger !! FlashcardData.id c with Some x => x | None => _ end).
  assert (UserResult.cardId x = FlashcardData.id c) as ->.
  { subst x. destruct (ledger !! FlashcardData.id c) eqn:E; [by apply Hk|done]. }
  case_bool_decide as Hid; [|apply IH]. simpl. f_equal. rewrite <- Hid. subst x.
  by destruct (ledger !! FlashcardData.id c).
Qed.

Lemma find_id_Some i c k :
  cards !! i = Some c → FlashcardData.id c = k →
  ∃ c', find (λ c, bool_decide (FlashcardData.id c = k)) cards = Some c' ∧
        c' ∈ cards ∧ FlashcardData.id c' = k.
Proof.
  intros Hc Hid.
  destruct (find (λ c, bool_decide (FlashcardData.id c = k)) cards) as [c'|] eqn:Hf.
  - apply find_some in Hf as [Hin Hb]. exists c'. split; [done|].
    split; [by apply list_elem_of_In|]. by apply bool_decide_eq_true in Hb.
  - exfalso. pose proof (find_none _ _ Hf c) as Hn. simpl in Hn.
    rewrite bool_decide_eq_true_2 in Hn by done.
    assert (true = false) by (apply Hn, list_elem_of_In; by eapply list_elem_of_lookup_2).
    done.
Qed.

Lemma find_id_None k :
  (∀ c, c ∈ cards → FlashcardData.id c ≠ k) →
  find (λ c, bool_decide (FlashcardData.id c = k)) cards = None.
Proof.
  intros Hno.
  destruct (find (λ c, bool_decide (FlashcardData.id c = k)) cards) as [c'|] eqn:Hf; [|done].
  apply find_some in Hf as [Hin%list_elem_of_In Hb%bool_decide_eq_true].
  by destruct (Hno c' Hin).
Qed.

Lemma mergeAnalysis_finalResults ledger a i c :
  LedgerFromCards cards ledger → cards !! i = Some c →
  CardAnalysis.cardId a = Some (FlashcardData.id c) →
  let r := default (synthesized c) (ledger !! FlashcardData.id c) in
  CardAnalysis.userInput (mergeAnalysis (finalResults cards ledger) a)
    = Some (UserResult.userInput r) ∧
  CardAnalysis.isBookmarked (mergeAnalysis (finalResults cards ledger) a)
    = Some (UserResult.isBookmarked r) ∧
  (NoDup (FlashcardData.id <$> cards) →
     CardAnalysis.chinese (mergeAnalysis (finalResults cards ledger) a)
       = Some (FlashcardData.chinese c)).
Proof.
  intros Hl Hc Ha. pose proof (LedgerFromCards_keyed _ Hl) as Hk.
  unfold mergeAnalysis, findOriginal. rewrite Ha. simpl.
  rewrite (find_finalResults ledger _ Hk).
  destruct (find_id_Some i c _ Hc eq_refl) as (c' & -> & Hin & Hid). simpl.
  destruct (ledger !! FlashcardData.id c) as [x|] eqn:Hx; simpl.
  - split; [done|]. split; [done|]. intros Hnd.
    destruct (Hl _ _ Hx) as (c0 & text & sk & bm & Hin0 & Hid0 & ->). simpl.
    do 2 f_equal. apply (NoDup_ids_eq cards); [done..|by eapply list_elem_of_lookup_2|done].
  - split; [done|]. split; [done|]. intros Hnd. do 2 f_equal.
    apply (NoDup_ids_eq cards); [done..|by eapply list_elem_of_lookup_2|done].
Qed.

End Report.

Lemma find_first (results : list UserResult.t) k pre r post :
  results = pre ++ r :: post →
  (∀ r', r' ∈ pre → UserResult.cardId r' ≠ k) → UserResult.cardId r = k →
  find (λ r, bool_decide (UserResult.cardId r = k)) results = Some r.
Proof.
  intros -> Hpre Hr. induction pre as [|x pre IH]; simpl.
  - by rewrite bool_decide_eq_true_2.
  - rewrite bool_decide_eq_false_2 by (apply Hpre; left).
    apply IH. intros r' Hin. apply Hpre. by right.
Qed.

(** X10. [mergeAnalysis] keeps the row's [cardId], [status], [errorType],
    [feedback] and [improvedVersion]; [mergeAnalyses] keeps the rows in
    place and in number.  A row whose [cardId] is that of some result takes
    [chinese], [userInput] and [isBookmarked] from the first such result of
    the list; a row whose [cardId] is missing or matches no result gets the
    empty string twice and [false].  Whatever the model put in those three
    properties is overwritten: rows that differ only there merge to the
    same row, and merging twice is merging once. *)
Theorem merge_overwrites_display_fields results :
  (∀ a,
     CardAnalysis.cardId (mergeAnalysis results a) = CardAnalysis.cardId a ∧
     CardAnalysis.status (mergeAnalysis results a) = CardAnalysis.status a ∧
     CardAnalysis.errorType (mergeAnalysis results a) = CardAnalysis.errorType a ∧
     CardAnalysis.feedback (mergeAnalysis results a) = CardAnalysis.feedback a ∧
     CardAnalysis.improvedVersion (mergeAnalysis results a)
       = CardAnalysis.improvedVersion a) ∧
  (∀ l i, mergeAnalyses results l !! i = mergeAnalysis results <$> l !! i) ∧
  (∀ l, length (mergeAnalyses results l) = length l) ∧
  (∀ a k pre r post,
     CardAnalysis.cardId a = Some k →
     results = pre ++ r :: post →
     (∀ r', r' ∈ pre → UserResult.cardId r' ≠ k) → UserResult.cardId r = k →
     CardAnalysis.chinese (mergeAnalysis results a) = Some (UserResult.chinese r) ∧
     CardAnalysis.userInput (mergeAnalysis results a) = Some (UserResult.userInput r) ∧
     CardAnalysis.isBookmarked (mergeAnalysis results a)
       = Some (UserResult.isBookmarked r)) ∧
  (∀ a,
     match CardAnalysis.cardId a with
     | Some k => ∀ r, r ∈ results → UserResult.cardId r ≠ k
     | None => True
     end →
     CardAnalysis.chinese (mergeAnalysis results a) = Some [] ∧
     CardAnalysis.userInput (mergeAnalysis results a) = Some [] ∧
     CardAnalysis.isBookmarked (mergeAnalysis results a) = Some false) ∧
  (∀ a b,
     CardAnalysis.cardId a = CardAnalysis.cardId b →
     CardAnalysis.status a = CardAnalysis.status b →
     CardAnalysis.errorType a = CardAnalysis.errorType b →
     CardAnalysis.feedback a = CardAnalysis.feedback b →
     CardAnalysis.improvedVersion a = CardAnalysis.improvedVersion b →
     mergeAnalysis results a = mergeAnalysis results b) ∧
  (∀ a, mergeAnalysis results (mergeAnalysis results a) = mergeAnalysis results a).
Proof.
  assert (∀ a b,
     CardAnalysis.cardId a = CardAnalysis.cardId b →
     CardAnalysis.status a = CardAnalysis.status b →
     CardAnalysis.errorType a = CardAnalysis.errorType b →
     CardAnalysis.feedback a = CardAnalysis.feedback b →
     CardAnalysis.improvedVersion a = CardAnalysis.improvedVersion b →
     mergeAnalysis results a = mergeAnalysis results b) as Hagree.
  { intros a b H1 H2 H3 H4 H5. unfold mergeAnalysis, findOriginal.
    by rewrite H1, H2, H3, H4, H5. }
  split; [done|]. split; [|split; [|split; [|split; [|split]]]].
  - intros l i. unfold mergeAnalyses. apply list_lookup_fmap.
  - intros l. apply length_fmap.
  - intros a k pre r post Ha Hres Hpre Hr.
    unfold mergeAnalysis, findOriginal. simpl.
    by rewrite Ha, (find_first results k pre r post Hres Hpre Hr).
  - intros a Hno. unfold mergeAnalysis, findOriginal. simpl.
    destruct (CardAnalysis.cardId a) as [k|]; [|done].
    destruct (find _ results) as [r|] eqn:Hf; [|done].
    apply find_some in Hf as [Hin%list_elem_of_In Hb%bool_decide_eq_true].
    by destruct (Hno r Hin).
  - done.
  - intros a. by apply Hagree.
Qed.

Lemma merge_overwrites_display_fields_witness :
  let r1 := UserResult.mk (js "1") [20320; 22909]%N (js "Hello") (js "Hi") false true in
  let r2 := UserResult.mk (js "2") [35874; 35874]%N (js "Thanks") [] true false in
  let a := CardAnalysis.mk (Some (js "2")) (Some (js "x")) None (Some (js "Not Passed"))
                           None (Some (js "try again")) None (Some true) in
  CardAnalysis.chinese (mergeAnalysis [r1; r2] a) = Some (UserResult.chinese r2) ∧
  CardAnalysis.userInput (mergeAnalysis [r1; r2] a) = Some (UserResult.userInput r2) ∧
  CardAnalysis.isBookmarked (mergeAnalysis [r1; r2] a) = Some (UserResult.isBookmarked r2).
Proof.
  refine (proj1 (proj2 (proj2 (proj2 (merge_overwrites_display_fields _)))) _ (js "2")
            [UserResult.mk (js "1") [20320; 22909]%N (js "Hello") (js "Hi") false true]
            _ [] _ _ _ _).
  - reflexivity.
  - reflexivity.
  - intros r' Hin. apply list_elem_of_singleton in Hin as ->. discriminate.
  - reflexivity.
Defined.

(** X11. When a session finishes and its list is merged into the report
    rows, a row whose [cardId] is the id of a card shows the [userInput]
    and the bookmark flag of that card's finalized result (at whichever
    position carries that id), and, when the ids of the store are pairwise
    distinct, the card's Chinese text; a row whose [cardId] is the id of no
    card shows the empty string and no bookmark. *)
Theorem report_rows_show_session_results cards acts fin a :
  run cards acts = Complete fin →
  (∀ i c r, cards !! i = Some c → fin !! i = Some r →
     CardAnalysis.cardId a = Some (FlashcardData.id c) →
     CardAnalysis.userInput (mergeAnalysis fin a) = Some (UserResult.userInput r) ∧
     CardAnalysis.isBookmarked (mergeAnalysis fin a) = Some (UserResult.isBookmarked r) ∧
     (NoDup (FlashcardData.id <$> cards) →
        CardAnalysis.chinese (mergeAnalysis fin a) = Some (FlashcardData.chinese c))) ∧
  ((∀ c, c ∈ cards → CardAnalysis.cardId a ≠ Some (FlashcardData.id c)) →
     CardAnalysis.chinese (mergeAnalysis fin a) = Some [] ∧
     CardAnalysis.userInput (mergeAnalysis fin a) = Some [] ∧
     CardAnalysis.isBookmarked (mergeAnalysis fin a) = Some false).
Proof.
  intros (ledger & -> & Hl)%run_Complete_ledger.
  pose proof (LedgerFromCards_keyed _ _ Hl) as Hk.
  split.
  - intros i c r Hc Hr Ha. rewrite (finalResults_lookup _ _ _ _ Hc) in Hr.
    injection Hr as <-. by apply (mergeAnalysis_finalResults cards ledger a i c).
  - intros Hno. unfold mergeAnalysis, findOriginal. simpl.
    destruct (CardAnalysis.cardId a) as [k|]; [|done].
    rewrite (find_finalResults cards ledger _ Hk), find_id_None; [done|].
    intros c Hin Hid. apply (Hno c Hin). by rewrite Hid.
Qed.

Lemma report_rows_show_session_results_witness :
  let fin := [UserResult.mk (js "1") [20320; 22909]%N (js "Hello") (js "Hi") false true;
              UserResult.mk (js "2") [35874; 35874]%N (js "Thanks") [] true false] in
  let a := CardAnalysis.mk (Some (js "1")) None None (Some (js "Passed")) None None None None in
  (∀ i c r, twoCards !! i = Some c → fin !! i = Some r →
     CardAnalysis.cardId a = Some (FlashcardData.id c) →
     CardAnalysis.userInput (mergeAnalysis fin a) = Some (UserResult.userInput r) ∧
     CardAnalysis.isBookmarked (mergeAnalysis fin a) = Some (UserResult.isBookmarked r) ∧
     (NoDup (FlashcardData.id <$> twoCards) →
        CardAnalysis.chinese (mergeAnalysis fin a) = Some (FlashcardData.chinese c))) ∧
  ((∀ c, c ∈ twoCards → CardAnalysis.cardId a ≠ Some (FlashcardData.id c)) →
     CardAnalysis.chinese (mergeAnalysis fin a) = Some [] ∧
     CardAnalysis.userInput (mergeAnalysis fin a) = Some [] ∧
     CardAnalysis.isBookmarked (mergeAnalysis fin a) = Some false).
Proof.
  apply (report_rows_show_session_results twoCards
           [ToggleBookmark; Type_ (js "Hi"); Submit; Advance; Skip; RetryDecline]).
  vm_compute. reflexivity.
Defined.

(** X12. When a session finishes and its list is merged into the report
    rows, the bookmarks-only filter of the summary shows exactly the merged
    rows whose [cardId] is the id of a card whose finalized result is
    bookmarked; without the filter every row is shown. *)
Theorem bookmark_filter_shows_bookmarked_cards cards acts fin analyses :
  run cards acts = Complete fin →
  (∀ x, x ∈ filteredCards true (mergeAnalyses fin analyses) ↔
        ∃ a i c r, a ∈ analyses ∧ x = mergeAnalysis fin a ∧
                   cards !! i = Some c ∧ fin !! i = Some r ∧
                   CardAnalysis.cardId a = Some (FlashcardData.id c) ∧
                   UserResult.isBookmarked r = true) ∧
  filteredCards false (mergeAnalyses fin analyses) = mergeAnalyses fin analyses.
Proof.
  intros Hrun. split; [|done]. intros x.
  unfold filteredCards, mergeAnalyses. rewrite list_elem_of_filter, list_elem_of_fmap.
  pose proof Hrun as (ledger & Hfin & Hl)%run_Complete_ledger.
  pose proof (LedgerFromCards_keyed _ _ Hl) as Hk.
  split.
  - intros [Hshown (a & -> & Hin)].
    apply Is_true_true in Hshown. unfold bookmarkShown, mergeAnalysis in Hshown.
    simpl in Hshown. unfold findOriginal in Hshown.
    destruct (CardAnalysis.cardId a) as [k|] eqn:Ha; [|done].
    destruct (find _ fin) as [r|] eqn:Hf; [|done].
    apply find_some in Hf as [[i Hi]%list_elem_of_In%list_elem_of_lookup
                               Hid%bool_decide_eq_true].
    assert (i < length cards) as Hlt.
    { apply lookup_lt_Some in Hi. by rewrite Hfin, finalResults_length in Hi. }
    destruct (lookup_lt_is_Some_2 _ _ Hlt) as [c Hc].
    exists a, i, c, r. split; [done|]. split; [done|]. split; [done|]. split; [done|].
    split; [|done]. rewrite Ha. f_equal. rewrite <- Hid.
    rewrite Hfin, (finalResults_lookup _ _ _ _ Hc) in Hi. injection Hi as <-.
    destruct (ledger !! FlashcardData.id c) eqn:E; simpl; [|done].
    by apply Hk.
  - intros (a & i & c & r & Hin & -> & Hc & Hr & Ha & Hb). split; [|eauto].
    rewrite Hfin in Hr |- *. rewrite (finalResults_lookup _ _ _ _ Hc) in Hr.
    injection Hr as <-.
    destruct (mergeAnalysis_finalResults cards ledger a i c Hl Hc Ha) as (_ & Hbm & _).
    apply Is_true_true. unfold bookmarkShown. by rewrite Hbm, Hb.
Qed.

Lemma bookmark_filter_shows_bookmarked_cards_witness :
  let fin := [UserResult.mk (js "1") [20320; 22909]%N (js "Hello") (js "Hi") false true;
              UserResult.mk (js "2") [35874; 35874]%N (js "Thanks") [] true false] in
  let analyses :=
    [CardAnalysis.mk (Some (js "1")) None None (Some (js "Passed")) None None None None;
     CardAnalysis.mk (Some (js "2")) None None (Some (js "Not Passed")) None None None
                     (Some true)] in
  (∀ x, x ∈ filteredCards true (mergeAnalyses fin analyses) ↔
        ∃ a i c r, a ∈ analyses ∧ x = mergeAnalysis fin a ∧
                   twoCards !! i = Some c ∧ fin !! i = Some r ∧
                   CardAnalysis.cardId a = Some (FlashcardData.id c) ∧
                   UserResult.isBookmarked r = true) ∧
  filteredCards false (mergeAnalyses fin analyses) = mergeAnalyses fin analyses.
Proof.
  apply (bookmark_filter_shows_bookmarked_cards twoCards
           [ToggleBookmark; Type_ (js "Hi"); Submit; Advance; Skip; RetryDecline]).
  vm_compute. reflexivity.
Defined.

(** * Submitting and skipping again *)

(** X13. In every reachable card screen, submitting a buffer that does not
    trim to the empty string files it for the current card exactly as
    typed (leading and trailing white space included) with the buffer's
    bookmark flag and [isSkipped = false], so the card no longer counts as
    skipped; the card is turned face up and the queue, the cursor and the
    buffer stay as they are. *)
Theorem submit_records_answer_as_typed cards acts s c :
  run cards acts = Next s → view cards s = CardView → currentCard cards s = Some c →
  trim (input s) ≠ [] →
  ∃ s', dispatch cards Submit (Next s) = Next s' ∧
        results s' !! FlashcardData.id c =
          Some (recorded c (input s) false (isBookmarked s)) ∧
        (∀ k, k ≠ FlashcardData.id c → results s' !! k = results s !! k) ∧
        ledgerSkipped (results s') (FlashcardData.id c) = false ∧
        isFlipped s' = true ∧ view cards s' = CardView ∧
        queue s' = queue s ∧ queueIndex s' = queueIndex s ∧
        input s' = input s ∧ isBookmarked s' = isBookmarked s.
Proof.
  intros Hrun Hv Hc Ht.
  pose proof (run_Settled _ _ _ Hrun) as Hs.
  pose proof (Settled_CardView _ _ Hs Hv) as Hp.
  assert (blank (input s) = false) as Hb.
  { destruct (blank (input s)) eqn:E; [|done]. by apply trim_blank in E. }
  eexists. split; [by apply (dispatch_Submit cards s c)|]. simpl.
  split; [by rewrite lookup_insert_eq|].
  split; [intros k Hk; by rewrite lookup_insert_ne|].
  split; [unfold ledgerSkipped; by rewrite lookup_insert_eq|].
  split; [done|]. split; [by apply (view_prompt_down _ _ c)|]. done.
Qed.

Lemma submit_records_answer_as_typed_witness :
  let c := FlashcardData.mk (js "1") [20320; 22909]%N (js "Hello") in
  let s := mkState [0; 1] 0 ∅ 0 false (js " Hi ") false false in
  ∃ s', dispatch twoCards Submit (Next s) = Next s' ∧
        results s' !! FlashcardData.id c =
          Some (recorded c (input s) false (isBookmarked s)) ∧
        (∀ k, k ≠ FlashcardData.id c → results s' !! k = results s !! k) ∧
        ledgerSkipped (results s') (FlashcardData.id c) = false ∧
        isFlipped s' = true ∧ view twoCards s' = CardView ∧
        queue s' = queue s ∧ queueIndex s' = queueIndex s ∧
        input s' = input s ∧ isBookmarked s' = isBookmarked s.
Proof.
  apply (submit_records_answer_as_typed twoCards [Type_ (js " Hi ")]);
    [reflexivity | reflexivity | reflexivity | discriminate].
Defined.

Section SkipAgain.

Variable cards : list FlashcardData.t.

Lemma dispatch_Skip_eq s c :
  Settled cards s → view cards s = CardView → currentCard cards s = Some c →
  dispatch cards Skip (Next s) =
    Next (rehydrate cards
            (goToNextCard
               (setResults (<[FlashcardData.id c :=
                                recorded c (input s) true (isBookmarked s)]> (results s)) s))).
Proof.
  intros Hs Hv Hc.
  set (s1 := setResults _ s).
  assert (0 < skippedCount cards (goToNextCard s1)) as Hpos.
  { destruct (currentCard_position _ _ _ Hc) as [i Hi].
    apply (skippedCount_pos cards _ i c Hi). rewrite results_goToNextCard.
    unfold ledgerSkipped. simpl. by rewrite lookup_insert_eq. }
  simpl. unfold handle. rewrite Hv, (handleSkip_eq _ _ c Hc).
  rewrite runEffects_continue by done.
  by rewrite rehydrateDepsChanged_write by (unfold goToNextCard; by case_decide).
Qed.

Lemma currentCard_same s s' :
  queue s' = queue s → queueIndex s' = queueIndex s →
  currentCard cards s' = currentCard cards s.
Proof. intros Hq Hi. unfold currentCard, currentCardIndex. by rewrite Hq, Hi. Qed.

End SkipAgain.

(** X14. In every reachable card screen whose cursor is not on the last
    queue position: skipping the card, going back to it and skipping it
    again leaves the ledger and the cursor exactly as the first Skip left
    them; the card keeps one entry, marked skipped, with the text and the
    bookmark flag it was first skipped with. *)
Theorem skip_previous_skip_is_idempotent cards acts s c :
  run cards acts = Next s → view cards s = CardView → currentCard cards s = Some c →
  queueIndex s + 1 < length (queue s) →
  ∃ s1 s3,
    run cards (acts ++ [Skip]) = Next s1 ∧
    run cards (acts ++ [Skip; Previous; Skip]) = Next s3 ∧
    results s1 = <[FlashcardData.id c := recorded c (input s) true (isBookmarked s)]>
                   (results s) ∧
    results s3 = results s1 ∧
    queue s3 = queue s1 ∧ queueIndex s3 = queueIndex s1 ∧
    queueIndex s1 = queueIndex s + 1.
Proof.
  intros Hrun Hv Hc Hlt.
  pose proof (run_Settled _ _ _ Hrun) as Hs.
  pose proof (CardView_QueueOk _ _ _ Hrun Hv) as Hq.
  pose proof (Settled_CardView _ _ Hs Hv) as Hp.
  set (entry := recorded c (input s) true (isBookmarked s)).
  (* first Skip *)
  set (w1 := setResults (<[FlashcardData.id c := entry]> (results s)) s).
  set (s1 := rehydrate cards (goToNextCard w1)).
  assert (run cards (acts ++ [Skip]) = Next s1) as Hrun1.
  { rewrite run_snoc, Hrun. by apply dispatch_Skip_eq. }
  assert (goToNextCard w1 = setQueueIndex (queueIndex s + 1) (setIsFlipped false w1))
    as Hgo by (unfold goToNextCard; by rewrite decide_True by (simpl; lia)).
  assert (queue s1 = queue s ∧ queueIndex s1 = queueIndex s + 1 ∧
          results s1 = <[FlashcardData.id c := entry]> (results s) ∧
          showRetryPrompt s1 = false) as (Hq1 & Hi1 & Hr1 & Hp1).
  { subst s1. rewrite results_rehydrate, showRetryPrompt_rehydrate.
    destruct (queue_rehydrate cards (goToNextCard w1)) as [-> ->].
    by rewrite Hgo. }
  pose proof (run_Settled _ _ _ Hrun1) as Hs1.
  pose proof (run_QueueOk _ _ _ (currentCard_nonempty _ _ _ Hc) Hrun1) as Hqo1.
  assert (view cards s1 = CardView) as Hv1.
  { destruct (QueueOk_currentCard _ _ Hqo1) as (? & c1 & _ & _ & Hc1 & _).
    by apply (view_prompt_down _ _ c1). }
  (* Previous *)
  set (w2 := setQueueIndex (queueIndex s1 - 1) (setIsFlipped false s1)).
  set (s2 := rehydrate cards w2).
  assert (run cards ((acts ++ [Skip]) ++ [Previous]) = Next s2) as Hrun2.
  { rewrite run_snoc, Hrun1. simpl. unfold handle. rewrite Hv1. unfold handlePrevious.
    rewrite decide_True by lia. destruct Hqo1 as (? & ? & ?).
    apply dispatch_move; [done|by split|done|lia|lia]. }
  assert (queue s2 = queue s ∧ queueIndex s2 = queueIndex s ∧
          results s2 = results s1 ∧ showRetryPrompt s2 = false) as (Hq2 & Hi2 & Hr2 & Hp2).
  { subst s2. rewrite results_rehydrate, showRetryPrompt_rehydrate.
    destruct (queue_rehydrate cards w2) as [-> ->]. subst w2. simpl.
    rewrite Hq1, Hi1. repeat split; [lia|done]. }
  assert (currentCard cards s2 = Some c) as Hc2.
  { by rewrite (currentCard_same cards s s2). }
  assert (input s2 = input s ∧ isBookmarked s2 = isBookmarked s) as [Hin2 Hbm2].
  { destruct (rehydrate_loaded cards w2) as [Hb Hi]. fold s2 in Hb, Hi.
    specialize (Hb c Hc2). specialize (Hi c Hc2).
    rewrite Hr2, Hr1, lookup_insert_eq in Hb, Hi. done. }
  assert (view cards s2 = CardView) as Hv2 by by apply (view_prompt_down _ _ c).
  (* second Skip *)
  pose proof (run_Settled _ _ _ Hrun2) as Hs2.
  set (w3 := setResults (<[FlashcardData.id c :=
                             recorded c (input s2) true (isBookmarked s2)]> (results s2)) s2).
  assert (run cards (((acts ++ [Skip]) ++ [Previous]) ++ [Skip])
          = Next (rehydrate cards (goToNextCard w3))) as Hrun3.
  { rewrite run_snoc, Hrun2. by apply dispatch_Skip_eq. }
  exists s1, (rehydrate cards (goToNextCard w3)).
  split; [done|]. split.
  { rewrite <- Hrun3. f_equal. by rewrite <- !app_assoc. }
  split; [done|].
  rewrite results_rehydrate, results_goToNextCard.
  destruct (queue_rehydrate cards (goToNextCard w3)) as [-> ->].
  assert (goToNextCard w3 = setQueueIndex (queueIndex s2 + 1) (setIsFlipped false w3))
    as -> by (unfold goToNextCard; rewrite decide_True; [done|simpl; rewrite Hq2, Hi2; lia]).
  subst w3. simpl. rewrite Hin2, Hbm2, Hr2, Hr1, Hq2, Hq1, Hi2, Hi1.
  split; [by rewrite insert_insert_eq|done].
Qed.

Lemma skip_previous_skip_is_idempotent_witness :
  let c := FlashcardData.mk (js "1") [20320; 22909]%N (js "Hello") in
  let s := mkState [0; 1] 0 ∅ 0 false (js "draft") false false in
  ∃ s1 s3,
    run twoCards ([Type_ (js "draft")] ++ [Skip]) = Next s1 ∧
    run twoCards ([Type_ (js "draft")] ++ [Skip; Previous; Skip]) = Next s3 ∧
    results s1 = <[FlashcardData.id c := recorded c (input s) true (isBookmarked s)]>
                   (results s) ∧
    results s3 = results s1 ∧
    queue s3 = queue s1 ∧ queueIndex s3 = queueIndex s1 ∧
    queueIndex s1 = queueIndex s + 1.
Proof.
  apply (skip_previous_skip_is_idempotent twoCards [Type_ (js "draft")]).
  - reflexivity.
  - reflexivity.
  - reflexivity.
  - simpl. lia.
Defined.
